(** * Run viewer: timeline reconstruction, duration formatting, selection

    A shallow embedding of [src/artifacts/index.jsx] (the component
    [OpenAIAssistantDebugger]) and the properties of its timeline builder
    [prepareTimelineData], its duration formatter [formatDuration], its
    fetch routine [fetchRunData] and its selection handler [scrollToStep].

    Conventions.
    - Epoch timestamps and the offsets computed from them are JavaScript
      Numbers holding integers far below 2^53, where [+], [-], [*] and the
      comparisons are exact; they are modelled as [Z].
    - [formatDuration] divides, so its argument and intermediate values are
      IEEE-754 binary64 numbers, modelled with the Standard Library's
      [spec_float] at precision 53 and maximal exponent 1024.
    - [null] is a constructor of the value type of each nullable field.
    - React state is a record; a handler is a program (a tree of setter
      calls, network requests and DOM requests) run against that record.

    The repository also holds an earlier variant of the component, whose
    timeline has no gaps and whose formatter has two branches; its
    [fetchRunData] and [scrollToStep] are the ones modelled here. *)

From Stdlib Require Import ZArith String Ascii List DecimalString Lia Bool.
From Stdlib Require Import Floats.SpecFloat.
From stdpp Require Import base gmap list strings.

Local Open Scope Z_scope.

(** ** JavaScript Numbers *)

Module Number.

Local Open Scope string_scope.
Local Open Scope Z_scope.

Definition prec : Z := 53.
Definition emax : Z := 1024.

(** The Number nearest to an integer (exact below 2^53). *)
Definition of_Z (z : Z) : spec_float := binary_normalize prec emax z 0 false.

(** The Number nearest to the rational [a / b], for positive [a], [b]. *)
Definition of_ratio (a b : positive) : spec_float :=
  SFdiv prec emax (S754_finite false a 0) (S754_finite false b 0).

Definition div : spec_float -> spec_float -> spec_float := SFdiv prec emax.
Definition ltb : spec_float -> spec_float -> bool := SFltb.
Definition gtb (x y : spec_float) : bool := SFltb y x.
Definition strict_eq : spec_float -> spec_float -> bool := SFeqb.

Definition is_nan (x : spec_float) : bool :=
  match x with S754_nan => true | _ => false end.

Definition is_finite (x : spec_float) : bool :=
  match x with S754_zero _ | S754_finite _ _ _ => true | _ => false end.

(** ToBoolean on a Number: [+0], [-0] and [NaN] are falsy. *)
Definition to_boolean (x : spec_float) : bool :=
  match x with S754_zero _ | S754_nan => false | _ => true end.

(** [floor (m * 2^e * 10^p)] for a positive mantissa, in exact arithmetic. *)
Definition floor_scaled (m : Z) (e p : Z) : Z :=
  let num := m * (if 0 <=? e then 2 ^ e else 1) * (if 0 <=? p then 10 ^ p else 1) in
  let den := (if 0 <=? e then 1 else 2 ^ (- e)) * (if 0 <=? p then 1 else 10 ^ (- p)) in
  num / den.

(** [Math.floor]: the largest integral Number not above [x]. *)
Definition Math_floor (x : spec_float) : spec_float :=
  match x with
  | S754_finite s m e =>
      if 0 <=? e then x
      else let z := Z.shiftr (cond_Zopp s (Zpos m)) (- e) in
           of_Z z
  | _ => x
  end.

(** [Math.round]: the integral Number closest to [x], ties towards
    +infinity; a result of zero keeps the sign of [x]. *)
Definition Math_round (x : spec_float) : spec_float :=
  match x with
  | S754_finite s m e =>
      if 0 <=? e then x
      else let z := Z.shiftr (2 * cond_Zopp s (Zpos m) + 2 ^ (- e)) (- e + 1) in
           if z =? 0 then S754_zero s else of_Z z
  | _ => x
  end.

(** The [%] operator: remainder of the truncating division, with the sign
    of the dividend; the result is always representable. *)
Definition rem (n d : spec_float) : spec_float :=
  match n, d with
  | S754_nan, _ | _, S754_nan => S754_nan
  | S754_infinity _, _ => S754_nan
  | _, S754_zero _ => S754_nan
  | _, S754_infinity _ => n
  | S754_zero _, _ => n
  | S754_finite sn mn en, S754_finite _ md ed =>
      let e := Z.min en ed in
      let a := Zpos mn * 2 ^ (en - e) in
      let b := Zpos md * 2 ^ (ed - e) in
      binary_normalize prec emax (cond_Zopp sn (a mod b)) e sn
  end.

(** Decimal digits of a natural number. *)
Definition digits (n : Z) : string := NilZero.string_of_uint (N.to_uint (Z.to_N n)).

Fixpoint zeros (n : nat) : string :=
  match n with O => EmptyString | S n' => String "0"%char (zeros n') end.

Definition str_take (n : nat) (s : string) : string := String.substring 0 n s.
Definition str_drop (n : nat) (s : string) : string :=
  String.substring n (String.length s - n) s.

(** *** Number::toString (radix 10) *)

(** The decimal exponent [n] with [10^(n-1) <= m * 2^e < 10^n]. *)
Definition decimal_exponent (m : positive) (e : Z) : Z :=
  let est := ((Zpos (digits2_pos m) + e) * 30103) / 100000 in
  let fits n := floor_scaled (Zpos m) e (- n) =? 0 in
  if fits (est - 2) then est - 2
  else if fits (est - 1) then est - 1
  else if fits est then est
  else if fits (est + 1) then est + 1
  else if fits (est + 2) then est + 2
  else est + 3.

(** The Number that the decimal [s * 10^p] denotes. *)
Definition of_decimal (s : Z) (p : Z) : spec_float :=
  if 0 <=? p then of_Z (s * 10 ^ p)
  else of_ratio (Z.to_pos s) (Z.to_pos (10 ^ (- p))).

(** [|s * 10^p - m * 2^e|] multiplied by [10^P * 2^(max 0 (-e))], an
    integer as soon as [0 <= p + P]. *)
Definition scaled_distance (m : positive) (e : Z) (P : Z) (s p : Z) : Z :=
  let two_up := if 0 <=? e then 2 ^ e else 1 in
  let two_dn := if 0 <=? e then 1 else 2 ^ (- e) in
  Z.abs (s * 10 ^ (p + P) * two_dn - Zpos m * two_up * 10 ^ P).

(** All [(n, s)] with [k] digits whose decimal reads back as [m * 2^e]. *)
Definition candidates (m : positive) (e : Z) (n0 : Z) (k : Z) : list (Z * Z) :=
  let x := S754_finite false m e in
  let try n s :=
    if (10 ^ (k - 1) <=? s) && (s <? 10 ^ k) && strict_eq (of_decimal s (n - k)) x
    then [(n, s)] else [] in
  let at_n n :=
    let lo := floor_scaled (Zpos m) e (k - n) in
    app (try n lo) (try n (lo + 1)) in
  app (at_n n0) (at_n (n0 + 1)).

(** Of several candidates the closest wins, an even [s] on a tie. *)
Definition closest (m : positive) (e : Z) (n0 k : Z) (c : list (Z * Z)) : option (Z * Z) :=
  let P := Z.max 0 (k - n0) in
  let dist (ns : Z * Z) := scaled_distance m e P (snd ns) (fst ns - k) in
  fold_left
    (fun best ns =>
       match best with
       | None => Some ns
       | Some b =>
           if (dist ns <? dist b) || ((dist ns =? dist b) && Z.even (snd ns))
           then Some ns else best
       end)
    c None.

Fixpoint shortest (fuel : nat) (m : positive) (e : Z) (n0 : Z) (k : Z) : Z * Z * Z :=
  match closest m e n0 k (candidates m e n0 k) with
  | Some (n, s) => (n, k, s)
  | None =>
      match fuel with
      | O => (n0, k, floor_scaled (Zpos m) e (k - n0))
      | S fuel' => shortest fuel' m e n0 (k + 1)
      end
  end.

Definition toString_pos (m : positive) (e : Z) : string :=
  let '(n, k, s) := shortest 16 m e (decimal_exponent m e) 1 in
  let ds := digits s in
  if (k <=? n) && (n <=? 21) then
    ds ++ zeros (Z.to_nat (n - k))
  else if (0 <? n) && (n <=? 21) then
    str_take (Z.to_nat n) ds ++ "." ++ str_drop (Z.to_nat n) ds
  else if (-6 <? n) && (n <=? 0) then
    "0." ++ zeros (Z.to_nat (- n)) ++ ds
  else
    let ex := (if 0 <=? n - 1 then "+" else "-") ++ digits (Z.abs (n - 1)) in
    if k =? 1 then ds ++ "e" ++ ex
    else str_take 1 ds ++ "." ++ str_drop 1 ds ++ "e" ++ ex.

Definition toString (x : spec_float) : string :=
  match x with
  | S754_nan => "NaN"
  | S754_zero _ => "0"
  | S754_infinity s => if s then "-Infinity" else "Infinity"
  | S754_finite s m e => (if s then "-" else "") ++ toString_pos m e
  end.

(** *** Number.prototype.toFixed *)

(** For a finite [x] below 10^21: the integer [n] with [n / 10^f] nearest
    to [|x|] (the larger on a tie), printed with [f] fraction digits. *)
Definition toFixed (f : nat) (x : spec_float) : string :=
  let fixed (s : bool) (n : Z) :=
    let ds := digits n in
    let ds := if (String.length ds <=? f)%nat
              then zeros (f + 1 - String.length ds) ++ ds else ds in
    let k := String.length ds in
    (if s then "-" else "") ++
    (if (f =? 0)%nat then ds
     else str_take (k - f) ds ++ "." ++ str_drop (k - f) ds) in
  match x with
  | S754_finite s m e =>
      if 10 ^ 21 <=? floor_scaled (Zpos m) e 0 then toString x
      else fixed s ((floor_scaled (2 * Zpos m) e (Z.of_nat f) + 1) / 2)
  | S754_zero _ => fixed false 0
  | _ => toString x
  end.

End Number.

(** ** Values handed to the formatter *)

(** [formatDuration] is called on offsets and durations (Numbers) and, in
    the step list, on [step.completed_at - step.started_at]; its guard also
    tests for [null]. *)
Inductive jsval : Type :=
  | JNull
  | JUndefined
  | JNum (x : spec_float).

Definition ToBoolean (v : jsval) : bool :=
  match v with
  | JNull | JUndefined => false
  | JNum x => Number.to_boolean x
  end.

Definition ToNumber (v : jsval) : spec_float :=
  match v with
  | JNull => S754_zero false
  | JUndefined => S754_nan
  | JNum x => x
  end.

(** The global [isNaN]: converts its argument to a Number first. *)
Definition isNaN (v : jsval) : bool := Number.is_nan (ToNumber v).

(** An integer-valued Number, as produced by timestamp arithmetic. *)
Definition JInt (z : Z) : jsval := JNum (Number.of_Z z).

(** ** formatDuration (index.jsx, lines 17-40) *)

Section FormatDuration.

Local Open Scope string_scope.
Local Open Scope Z_scope.
Import Number.

Definition formatDuration (ms : jsval) : string :=
  if negb (ToBoolean ms) || isNaN ms then "N/A"
  else
    let ms := ToNumber ms in
    (* Format as milliseconds for very short durations *)
    if ltb ms (of_Z 1000) then toString (Math_round ms) ++ "ms"
    else
      (* Convert to seconds *)
      let totalSeconds := div ms (of_Z 1000) in
      (* Format as seconds if less than 60 seconds *)
      if ltb totalSeconds (of_Z 60) then
        (if strict_eq (Math_floor totalSeconds) totalSeconds
         then toString (Math_floor totalSeconds)
         else toFixed 1 totalSeconds) ++ "s"
      else
        (* Format as minutes and seconds for longer durations *)
        let minutes := Math_floor (div totalSeconds (of_Z 60)) in
        let seconds := Math_round (rem totalSeconds (of_Z 60)) in
        (* Only include seconds if they're non-zero *)
        if gtb seconds (of_Z 0)
        then toString minutes ++ "m " ++ toString seconds ++ "s"
        else toString minutes ++ "m".

End FormatDuration.

(** ** Run and step records *)

(** A step as stored in [runData.steps]: the API's fields (kept by the
    object spread) plus [started_at], and [completed_at] in milliseconds or
    [null]. [step_details] is an opaque payload, kept as its JSON text. *)
Record Step : Type := mkStep {
  step_id : string;
  step_type : option string;
  step_status : option string;
  step_created_at : Z;
  step_started_at : Z;
  step_completed_at : option Z;
  step_details : string
}.

(** The object passed to [setRunData]. *)
Record Run : Type := mkRun {
  run_id : string;
  run_thread_id : string;
  run_assistant_id : string;
  run_status : string;
  run_started_at : Z;
  run_completed_at : Z;
  run_steps : list Step
}.

(** A nullable Number used as a condition ([x ? a : b]): [null] and [0]
    are falsy. *)
Definition truthy (x : option Z) : bool :=
  match x with
  | Some z => negb (z =? 0)
  | None => false
  end.

(** A nullable Number used as an operand of [-] or [<]: [null] counts as 0. *)
Definition num (x : option Z) : Z :=
  match x with
  | Some z => z
  | None => 0
  end.

(** A possibly missing string used as [s || fallback]. *)
Definition or_else (s : option string) (fallback : string) : string :=
  match s with
  | Some EmptyString | None => fallback
  | Some t => t
  end.

(** A Number holding an integer, interpolated into a template literal. *)
Definition show (z : Z) : string := Number.toString (Number.of_Z z).

(** ** Timeline segments *)

(** One datum of the waterfall chart. [seg_isSelected] is absent on gap
    objects. *)
Record Segment : Type := mkSegment {
  seg_name : string;
  seg_actualStart : Z;
  seg_duration : Z;
  seg_actualEnd : Z;
  seg_index : Z;
  seg_isSelected : option bool;
  seg_isGap : bool;
  seg_durationLabel : string
}.

(** [selectedStepIndex === index] *)
Definition is_selected (selectedStepIndex : option Z) (index : Z) : bool :=
  match selectedStepIndex with
  | Some i => i =? index
  | None => false
  end.

Section Timeline.

Local Open Scope string_scope.
Local Open Scope Z_scope.

(** The object literal pushed for a gap. *)
Definition gapSegment (actualStart gapDuration actualEnd : Z) : Segment :=
  {| seg_name := "<unknown>";
     seg_actualStart := actualStart;
     seg_duration := gapDuration;
     seg_actualEnd := actualEnd;
     seg_index := -1;
     seg_isSelected := None;
     seg_isGap := true;
     seg_durationLabel := formatDuration (JInt gapDuration) |}.

Variables (startTime endTime : Z) (selectedStepIndex : option Z).

(** Lines 208-223: the gap between the run start and the first step. *)
Definition initialGap (steps : list Step) : list Segment :=
  match steps with
  | firstStep :: _ =>
      if step_started_at firstStep >? startTime then
        let gapDuration := step_started_at firstStep - startTime in
        [gapSegment 0 gapDuration gapDuration]
      else []
  | [] => []
  end.

(** Lines 228-241: the object pushed for the step at [index]. *)
Definition stepSegment (index : nat) (step : Step) : Segment :=
  let actualStart := step_started_at step - startTime in
  let actualEnd :=
    if truthy (step_completed_at step)
    then num (step_completed_at step) - startTime
    else endTime - startTime in
  let duration := actualEnd - actualStart in
  {| seg_name := show (Z.of_nat index + 1) ++ ". " ++ or_else (step_type step) "Unknown";
     seg_actualStart := actualStart;
     seg_duration := duration;
     seg_actualEnd := actualEnd;
     seg_index := Z.of_nat index;
     seg_isSelected := Some (is_selected selectedStepIndex (Z.of_nat index));
     seg_isGap := false;
     seg_durationLabel := formatDuration (JInt duration) |}.

(** Lines 243-259: the gap after a step, given [nextStep] (or [null]). *)
Definition gapAfter (step : Step) (nextStep : option Step) : list Segment :=
  match nextStep with
  | Some nextStep =>
      if num (step_completed_at step) <? step_started_at nextStep then
        let gapStart := num (step_completed_at step) - startTime in
        let gapEnd := step_started_at nextStep - startTime in
        let gapDuration := gapEnd - gapStart in
        [gapSegment gapStart gapDuration gapEnd]
      else []
  | None => []
  end.

(** Lines 226-260: the [forEach] over [runData.steps]; each callback
    pushes the step and possibly a gap, looking up [steps[index + 1]]. *)
Definition forEachStep (steps : list Step) : list Segment :=
  concat (imap (fun index step =>
                  stepSegment index step :: gapAfter step (steps !! S index))
               steps).

(** Lines 262-277: the gap between the last step and the run end. *)
Definition trailingGap (steps : list Step) : list Segment :=
  match last steps with
  | Some lastStep =>
      if num (step_completed_at lastStep) <? endTime then
        let gapStart := num (step_completed_at lastStep) - startTime in
        let gapDuration := endTime - num (step_completed_at lastStep) in
        [gapSegment gapStart gapDuration (endTime - startTime)]
      else []
  | None => []
  end.

Definition timelineOf (steps : list Step) : list Segment :=
  (initialGap steps ++ forEachStep steps ++ trailingGap steps)%list.

(** The [forEach] as a recursion over the remaining steps. *)
Fixpoint segmentsFrom (index : nat) (steps : list Step) : list Segment :=
  match steps with
  | [] => []
  | step :: rest =>
      (stepSegment index step :: gapAfter step (head rest)
         ++ segmentsFrom (S index) rest)%list
  end.

End Timeline.

(** [prepareTimelineData] (lines 201-280) reads [runData] and
    [selectedStepIndex] from the component state. *)
Definition prepareTimelineData (runData : option Run) (selectedStepIndex : option Z)
  : list Segment :=
  match runData with
  | None => []
  | Some runData =>
      match run_steps runData with
      | [] => []
      | steps =>
          timelineOf (run_started_at runData) (run_completed_at runData)
                     selectedStepIndex steps
      end
  end.

(** ** The data source *)

(** The run object of the API ([runInfo]). *)
Record RunInfo : Type := mkRunInfo {
  ri_id : string;
  ri_thread_id : string;
  ri_assistant_id : option string;
  ri_status : string;
  ri_created_at : Z;
  ri_completed_at : option Z
}.

(** One element of [stepsData.data]; timestamps in epoch seconds. *)
Record RawStep : Type := mkRawStep {
  rs_id : string;
  rs_type : option string;
  rs_status : option string;
  rs_created_at : Z;
  rs_completed_at : option Z;
  rs_step_details : string
}.

Record StepsData : Type := mkStepsData { sd_data : list RawStep }.

Record Headers : Type := mkHeaders {
  h_Authorization : string;
  h_Content_Type : string;
  h_OpenAI_Beta : string
}.

(** A response of [fetch]: [resp_text] is the body and [resp_json] the
    result of [JSON.parse] on it ([None] when parsing throws). A body that
    parses is taken to have the shape the endpoint documents. *)
Record Response (A : Type) : Type := mkResponse {
  resp_ok : bool;
  resp_status : Z;
  resp_statusText : string;
  resp_text : string;
  resp_json : option A
}.
Arguments mkResponse {A}.
Arguments resp_ok {A}.
Arguments resp_status {A}.
Arguments resp_statusText {A}.
Arguments resp_text {A}.
Arguments resp_json {A}.

(** [await fetch(...)] either rejects with an error or yields a response. *)
Inductive FetchResult (A : Type) : Type :=
  | Rejected (message : string)
  | Replied (resp : Response A).
Arguments Rejected {A}.
Arguments Replied {A}.

(** ** Component state *)

(** [responseJson || responseText] *)
Inductive Body (A : Type) : Type :=
  | Parsed (json : A)
  | Text (text : string).
Arguments Parsed {A}.
Arguments Text {A}.

Record DebugInfo : Type := mkDebugInfo {
  di_runUrl : option string;
  di_runHeaders : option Headers;
  di_runStatus : option Z;
  di_runStatusText : option string;
  di_runResponse : option (Body RunInfo);
  di_stepsUrl : option string;
  di_stepsHeaders : option Headers;
  di_stepsStatus : option Z;
  di_stepsStatusText : option string;
  di_stepsResponse : option (Body StepsData)
}.

Definition emptyDebugInfo : DebugInfo :=
  mkDebugInfo None None None None None None None None None None.

(** The [useState] cells of the component (lines 179-188). *)
Record State : Type := mkState {
  runId : string;
  threadId : string;
  assistantId : string;
  apiKey : string;
  debugMode : bool;
  debugInfo : option DebugInfo;
  runData : option Run;
  loading : bool;
  error : option string;
  selectedStepIndex : option Z
}.

Definition upd_DebugInfo (f : option DebugInfo -> option DebugInfo) (s : State) : State :=
  mkState (runId s) (threadId s) (assistantId s) (apiKey s) (debugMode s)
          (f (debugInfo s)) (runData s) (loading s) (error s) (selectedStepIndex s).
Definition upd_RunData (r : option Run) (s : State) : State :=
  mkState (runId s) (threadId s) (assistantId s) (apiKey s) (debugMode s)
          (debugInfo s) r (loading s) (error s) (selectedStepIndex s).
Definition upd_Loading (b : bool) (s : State) : State :=
  mkState (runId s) (threadId s) (assistantId s) (apiKey s) (debugMode s)
          (debugInfo s) (runData s) b (error s) (selectedStepIndex s).
Definition upd_Error (e : option string) (s : State) : State :=
  mkState (runId s) (threadId s) (assistantId s) (apiKey s) (debugMode s)
          (debugInfo s) (runData s) (loading s) e (selectedStepIndex s).
Definition upd_SelectedStepIndex (i : option Z) (s : State) : State :=
  mkState (runId s) (threadId s) (assistantId s) (apiKey s) (debugMode s)
          (debugInfo s) (runData s) (loading s) (error s) i.

(** A DOM node of the step list: the card rendered for the step at
    [index] (line 757 stores it in [stepRefs.current[index]]). *)
Inductive Element : Type := StepCard (index : nat).

(** ** Handlers as programs *)

(** What a handler does besides updating state. *)
Inductive Event : Type :=
  | EvFetch (url : string) (headers : Headers)
  | EvConsole (label message : string)
  | EvScrollIntoView (el : Element).

(** A handler: setter calls, requests with the continuation after the
    [await], reads of the clock, and DOM requests. *)
Inductive Prog (A : Type) : Type :=
  | Ret (a : A)
  | SetLoading (b : bool) (k : Prog A)
  | SetError (e : option string) (k : Prog A)
  | SetDebugInfo (f : option DebugInfo -> option DebugInfo) (k : Prog A)
  | SetRunData (r : Run) (k : Prog A)
  | SetSelectedStepIndex (i : Z) (k : Prog A)
  | FetchRun (url : string) (headers : Headers) (k : FetchResult RunInfo -> Prog A)
  | FetchSteps (url : string) (headers : Headers) (k : FetchResult StepsData -> Prog A)
  | DateNow (k : Z -> Prog A)
  | Console (label message : string) (k : Prog A)
  | ScrollIntoView (el : Element) (k : Prog A).
Arguments Ret {A}.
Arguments SetLoading {A}.
Arguments SetError {A}.
Arguments SetDebugInfo {A}.
Arguments SetRunData {A}.
Arguments SetSelectedStepIndex {A}.
Arguments FetchRun {A}.
Arguments FetchSteps {A}.
Arguments DateNow {A}.
Arguments Console {A}.
Arguments ScrollIntoView {A}.

Fixpoint bind {A B : Type} (p : Prog A) (f : A -> Prog B) : Prog B :=
  match p with
  | Ret a => f a
  | SetLoading b k => SetLoading b (bind k f)
  | SetError e k => SetError e (bind k f)
  | SetDebugInfo g k => SetDebugInfo g (bind k f)
  | SetRunData r k => SetRunData r (bind k f)
  | SetSelectedStepIndex i k => SetSelectedStepIndex i (bind k f)
  | FetchRun u h k => FetchRun u h (fun r => bind (k r) f)
  | FetchSteps u h k => FetchSteps u h (fun r => bind (k r) f)
  | DateNow k => DateNow (fun t => bind (k t) f)
  | Console l m k => Console l m (bind k f)
  | ScrollIntoView el k => ScrollIntoView el (bind k f)
  end.

#[export] Instance Prog_ret : MRet Prog := fun A a => Ret a.
#[export] Instance Prog_bind : MBind Prog := fun A B f p => bind p f.

(** The world a handler runs in: the data source and the clock. *)
Record Env : Type := mkEnv {
  env_run : string -> Headers -> FetchResult RunInfo;
  env_steps : string -> Headers -> FetchResult StepsData;
  env_now : Z
}.

(** Running a handler: the final state, the events in order, the result. *)
Fixpoint exec {A : Type} (env : Env) (p : Prog A) (s : State) : State * list Event * A :=
  match p with
  | Ret a => (s, [], a)
  | SetLoading b k => exec env k (upd_Loading b s)
  | SetError e k => exec env k (upd_Error e s)
  | SetDebugInfo f k => exec env k (upd_DebugInfo f s)
  | SetRunData r k => exec env k (upd_RunData (Some r) s)
  | SetSelectedStepIndex i k => exec env k (upd_SelectedStepIndex (Some i) s)
  | FetchRun u h k =>
      let '(s', evs, a) := exec env (k (env_run env u h)) s in
      (s', EvFetch u h :: evs, a)
  | FetchSteps u h k =>
      let '(s', evs, a) := exec env (k (env_steps env u h)) s in
      (s', EvFetch u h :: evs, a)
  | DateNow k => exec env (k (env_now env)) s
  | Console l m k =>
      let '(s', evs, a) := exec env k s in
      (s', EvConsole l m :: evs, a)
  | ScrollIntoView el k =>
      let '(s', evs, a) := exec env k s in
      (s', EvScrollIntoView el :: evs, a)
  end.

Definition final_state {A : Type} (r : State * list Event * A) : State := fst (fst r).
Definition events {A : Type} (r : State * list Event * A) : list Event := snd (fst r).

(** ** fetchRunData (lines 282-439) *)

Section Handlers.

Local Open Scope string_scope.
Local Open Scope Z_scope.

(** [!s] on a string. *)
Definition is_empty (s : string) : bool :=
  match s with EmptyString => true | _ => false end.

(** [message || fallback] *)
Definition message_or (message fallback : string) : string :=
  if is_empty message then fallback else message.

Definition setLoading (b : bool) : Prog unit := SetLoading b (Ret tt).
Definition setError (e : option string) : Prog unit := SetError e (Ret tt).
Definition setDebugInfo (f : option DebugInfo -> option DebugInfo) : Prog unit :=
  SetDebugInfo f (Ret tt).
Definition setRunData (r : Run) : Prog unit := SetRunData r (Ret tt).
Definition console (label message : string) : Prog unit := Console label message (Ret tt).
Definition when (b : bool) (p : Prog unit) : Prog unit := if b then p else Ret tt.

Definition validation_message : string :=
  "Run ID, Thread ID, and API Key are required".

(** The messages of the TypeErrors raised by [stepsData.data] and
    [runInfo.id] on [null] (as V8 words them). *)
Definition TypeError_data : string := "Cannot read properties of null (reading 'data')".
Definition TypeError_id : string := "Cannot read properties of null (reading 'id')".

Definition requestHeaders (apiKey : string) : Headers :=
  {| h_Authorization := "Bearer " ++ apiKey;
     h_Content_Type := "application/json";
     h_OpenAI_Beta := "assistants=v2" |}.

(** The headers shown in the debug panel, with the key masked. *)
Definition maskedHeaders (apiKey : string) : Headers :=
  {| h_Authorization :=
       "Bearer " ++ String.substring 0 3 apiKey ++ "..."
                 ++ Number.str_drop (String.length apiKey - 3) apiKey;
     h_Content_Type := "application/json";
     h_OpenAI_Beta := "assistants=v2" |}.

(** [responseJson || responseText] *)
Definition json_or_text {A : Type} (responseJson : option A) (responseText : string) : Body A :=
  match responseJson with
  | Some j => Parsed j
  | None => Text responseText
  end.

(** [{...prevInfo}]: spreading [null] gives the empty object. *)
Definition spread (prevInfo : option DebugInfo) : DebugInfo :=
  match prevInfo with Some d => d | None => emptyDebugInfo end.

(** Lines 412-417: seconds to milliseconds, for one step. *)
Definition transformStep (step : RawStep) : Step :=
  {| step_id := rs_id step;
     step_type := rs_type step;
     step_status := rs_status step;
     step_created_at := rs_created_at step;
     step_started_at := rs_created_at step * 1000;
     step_completed_at :=
       if truthy (rs_completed_at step)
       then Some (num (rs_completed_at step) * 1000)
       else None;
     step_details := rs_step_details step |}.

(** Line 420: [sort((a, b) => a.created_at - b.created_at)]. The sort of
    an array is stable; an element is placed before the first one that
    the comparator does not put before it. *)
Fixpoint insertStep (a : Step) (l : list Step) : list Step :=
  match l with
  | [] => [a]
  | b :: l' =>
      if step_created_at a - step_created_at b <=? 0 then a :: l
      else b :: insertStep a l'
  end.

Definition sortSteps (l : list Step) : list Step := foldr insertStep [] l.

(** Lines 309-345: the request for the run, with its [try]/[catch]. The
    result is the thrown message or [runInfo]. *)
Definition requestRun (c : State) (runUrl : string) : Prog (string + option RunInfo) :=
  FetchRun runUrl (requestHeaders (apiKey c)) (fun result =>
    r ← match result with
        | Rejected message => Ret (inl message)
        | Replied runResponse =>
            let responseText := resp_text runResponse in
            let responseJson := resp_json runResponse in
            when (debugMode c)
              (setDebugInfo (fun prevInfo =>
                 let d := spread prevInfo in
                 Some (mkDebugInfo (di_runUrl d) (di_runHeaders d)
                         (Some (resp_status runResponse))
                         (Some (resp_statusText runResponse))
                         (Some (json_or_text responseJson responseText))
                         (di_stepsUrl d) (di_stepsHeaders d) (di_stepsStatus d)
                         (di_stepsStatusText d) (di_stepsResponse d)))) ;;
            if negb (resp_ok runResponse) then
              Ret (inl ("Run API request failed with status "
                          ++ show (resp_status runResponse) ++ ": " ++ responseText))
            else Ret (inr responseJson)
        end;
    match r with
    | inl message =>
        console "Error fetching run:" message ;;
        Ret (inl ("Error fetching run details: " ++ message_or message "Network error"))
    | inr runInfo => Ret (inr runInfo)
    end).

(** Lines 373-409: the request for the steps. *)
Definition requestSteps (c : State) (stepsUrl : string) : Prog (string + option StepsData) :=
  FetchSteps stepsUrl (requestHeaders (apiKey c)) (fun result =>
    r ← match result with
        | Rejected message => Ret (inl message)
        | Replied stepsResponse =>
            let responseText := resp_text stepsResponse in
            let responseJson := resp_json stepsResponse in
            when (debugMode c)
              (setDebugInfo (fun prevInfo =>
                 let d := spread prevInfo in
                 Some (mkDebugInfo (di_runUrl d) (di_runHeaders d) (di_runStatus d)
                         (di_runStatusText d) (di_runResponse d)
                         (di_stepsUrl d) (di_stepsHeaders d)
                         (Some (resp_status stepsResponse))
                         (Some (resp_statusText stepsResponse))
                         (Some (json_or_text responseJson responseText))))) ;;
            if negb (resp_ok stepsResponse) then
              Ret (inl ("Steps API request failed with status "
                          ++ show (resp_status stepsResponse) ++ ": " ++ responseText))
            else Ret (inr responseJson)
        end;
    match r with
    | inl message =>
        console "Error fetching steps:" message ;;
        Ret (inl ("Error fetching run steps: " ++ message_or message "Network error"))
    | inr stepsData => Ret (inr stepsData)
    end).

(** Lines 411-432: build [processedData] and store it. *)
Definition storeRun (c : State) (runInfo : option RunInfo) (stepsData : option StepsData)
  : Prog (string + unit) :=
  match stepsData with
  | None => Ret (inl TypeError_data)
  | Some stepsData =>
      let transformedSteps := sortSteps (map transformStep (sd_data stepsData)) in
      match runInfo with
      | None => Ret (inl TypeError_id)
      | Some runInfo =>
          completed_at ←
            (if truthy (ri_completed_at runInfo)
             then Ret (num (ri_completed_at runInfo) * 1000)
             else DateNow Ret);
          setRunData
            {| run_id := ri_id runInfo;
               run_thread_id := ri_thread_id runInfo;
               run_assistant_id := or_else (ri_assistant_id runInfo) (assistantId c);
               run_status := ri_status runInfo;
               run_started_at := ri_created_at runInfo * 1000;
               run_completed_at := completed_at;
               run_steps := transformedSteps |} ;;
          Ret (inr tt)
      end
  end.

(** Lines 292-432: the body of the outer [try]. *)
Definition tryFetch (c : State) : Prog (string + unit) :=
  let runUrl :=
    "https://api.openai.com/v1/threads/" ++ threadId c ++ "/runs/" ++ runId c in
  when (debugMode c)
    (setDebugInfo (fun _ =>
       Some (mkDebugInfo (Some runUrl) (Some (maskedHeaders (apiKey c)))
               None None None None None None None None))) ;;
  r ← requestRun c runUrl;
  match r with
  | inl message => Ret (inl message)
  | inr runInfo =>
      let stepsUrl :=
        "https://api.openai.com/v1/threads/" ++ threadId c ++ "/runs/" ++ runId c
          ++ "/steps?limit=100" in
      when (debugMode c)
        (setDebugInfo (fun prevInfo =>
           let d := spread prevInfo in
           Some (mkDebugInfo (di_runUrl d) (di_runHeaders d) (di_runStatus d)
                   (di_runStatusText d) (di_runResponse d)
                   (Some stepsUrl) (Some (maskedHeaders (apiKey c)))
                   (di_stepsStatus d) (di_stepsStatusText d) (di_stepsResponse d))) ;;
         console "Steps URL:" stepsUrl) ;;
      r ← requestSteps c stepsUrl;
      match r with
      | inl message => Ret (inl message)
      | inr stepsData => storeRun c runInfo stepsData
      end
  end.

(** [fetchRunData], as created by the render whose state is [c]. *)
Definition fetchRunData (c : State) : Prog unit :=
  if is_empty (runId c) || is_empty (threadId c) || is_empty (apiKey c) then
    setError (Some validation_message)
  else
    setLoading true ;;
    setError None ;;
    setDebugInfo (fun _ => None) ;;
    r ← tryFetch c;
    match r with
    | inl message =>
        setError (Some ("Error: " ++ message_or message "Unknown error occurred")) ;;
        console "Detailed error:" message
    | inr _ => Ret tt
    end ;;
    setLoading false.

(** ** Selection (lines 441-449 and 122-124) *)

(** After a render, [stepRefs.current] holds the card of every step of
    the list (line 757); other entries are absent or [null]. *)
Definition stepRefsOf (steps : list Step) : gmap Z Element :=
  foldr (fun i refs => <[Z.of_nat i := StepCard i]> refs) ∅ (seq 0 (length steps)).

Definition scrollToStep (stepRefs : gmap Z Element) (index : Z) : Prog unit :=
  SetSelectedStepIndex index
    (match stepRefs !! index with
     | Some el => ScrollIntoView el (Ret tt)
     | None => Ret tt
     end).

(** The click listener of a bar of the chart. *)
Definition barClick (onStepClick : Z -> Prog unit) (d : Segment) : Prog unit :=
  if negb (seg_isGap d) then onStepClick (seg_index d) else Ret tt.

End Handlers.

(** What one render of the component produces, as far as the timeline and
    the selection go: the chart data (line 451), the refs left in
    [stepRefs.current] by the step list, and the click listener of the
    bars, which is given [scrollToStep] as [onStepClick] (line 727). *)
Record View : Type := mkView {
  timelineData : list Segment;
  stepRefs : gmap Z Element;
  onBarClick : Segment -> Prog unit
}.

Definition viewOf (s : State) : View :=
  let refs := match runData s with
              | Some r => stepRefsOf (run_steps r)
              | None => ∅
              end in
  {| timelineData := prepareTimelineData (runData s) (selectedStepIndex s);
     stepRefs := refs;
     onBarClick := barClick (scrollToStep refs) |}.

(** The body of the component reads the state and calls no setter. *)
Definition render (s : State) : Prog View := Ret (viewOf s).

(** A handler that never calls [setSelectedStepIndex]. *)
Fixpoint never_selects {A : Type} (p : Prog A) : Prop :=
  match p with
  | Ret _ => True
  | SetSelectedStepIndex _ _ => False
  | SetLoading _ k | SetError _ k | SetDebugInfo _ k | SetRunData _ k
  | Console _ _ k | ScrollIntoView _ k => never_selects k
  | FetchRun _ _ k => forall r, never_selects (k r)
  | FetchSteps _ _ k => forall r, never_selects (k r)
  | DateNow k => forall t, never_selects (k t)
  end.

(** ** Vocabulary of the specification *)

Section TimelineVocabulary.

Local Open Scope Z_scope.

(** The timeline written as a recursion that carries the time up to which
    the previous step reached ([prev], an epoch time; the run start before
    the first step): a gap when the step starts after [prev], the step,
    and after the last step the gap up to the run end. 
    [timelineOf_segmentsAfter] shows that this is [timelineOf]. *)
Fixpoint segmentsAfter (startTime endTime : Z) (sel : option Z)
         (prev : Z) (index : nat) (steps : list Step) : list Segment :=
  match steps with
  | [] =>
      if prev <? endTime
      then [gapSegment (prev - startTime) (endTime - prev) (endTime - startTime)]
      else []
  | step :: rest =>
      let gap :=
        if prev <? step_started_at step
        then [gapSegment (prev - startTime)
                         (step_started_at step - startTime - (prev - startTime))
                         (step_started_at step - startTime)]
        else [] in
      gap ++ stepSegment startTime endTime sel index step
          :: segmentsAfter startTime endTime sel (num (step_completed_at step)) (S index) rest
  end.

(** Two adjacent step segments whose intervals overlap. *)
Definition overlapping (a b : Segment) : Prop :=
  seg_isGap a = false /\ seg_isGap b = false /\ seg_actualStart b < seg_actualEnd a.

(** What the specification asks of adjacent segments: ascending starts,
    and contiguity unless two steps overlap. *)
Definition adjacent_ok (a b : Segment) : Prop :=
  seg_actualStart a <= seg_actualStart b
  /\ (seg_actualEnd a = seg_actualStart b \/ overlapping a b).

(** The invariants of a Segment sequence for a run of duration [total]. *)
Definition timeline_invariant (total : Z) (segs : list Segment) : Prop :=
  (forall i a b, segs !! i = Some a -> segs !! S i = Some b -> adjacent_ok a b)
  /\ (forall a, head segs = Some a -> seg_actualStart a = 0)
  /\ (forall b, last segs = Some b -> seg_actualEnd b = Z.max 0 total).

(** Every adjacent pair of a list is related. *)
Fixpoint chain {A : Type} (R : A -> A -> Prop) (l : list A) : Prop :=
  match l with
  | a :: (b :: _) as t => R a b /\ chain R t
  | _ => True
  end.

(** Steps in ascending order of their start. *)
Definition sorted_by_start (steps : list Step) : Prop :=
  chain (fun a b => step_started_at a <= step_started_at b) steps.

(** A step with a resolved end that lies inside the run:
    run start <= step start <= step end <= run end. *)
Definition within_run (startTime endTime : Z) (step : Step) : Prop :=
  truthy (step_completed_at step) = true
  /\ startTime <= step_started_at step
  /\ step_started_at step <= num (step_completed_at step)
  /\ num (step_completed_at step) <= endTime.

(** Is a gap segment immediately before the segment of step [i]? *)
Fixpoint gap_before (i : Z) (segs : list Segment) : bool :=
  match segs with
  | g :: (d :: _) as rest =>
      (seg_isGap g && negb (seg_isGap d) && (seg_index d =? i)) || gap_before i rest
  | _ => false
  end.

(** The offsets of a step relative to the run start; an unresolved end
    counts as the run's duration. *)
Definition rel_start (startTime : Z) (step : Step) : Z :=
  step_started_at step - startTime.
Definition rel_end (startTime endTime : Z) (step : Step) : Z :=
  if truthy (step_completed_at step)
  then num (step_completed_at step) - startTime
  else endTime - startTime.

(** The gap rule in the specification's words: a gap before a step iff
    its [rel_start] exceeds the cursor; after the step the cursor becomes
    [advance cursor rel_end]. The specification takes [advance := Z.max]. *)
Fixpoint gap_flags (advance : Z -> Z -> Z) (startTime endTime : Z)
         (cursor : Z) (steps : list Step) : list bool :=
  match steps with
  | [] => []
  | step :: rest =>
      (cursor <? rel_start startTime step)
        :: gap_flags advance startTime endTime
             (advance cursor (rel_end startTime endTime step)) rest
  end.

Definition resolved (step : Step) : Prop := truthy (step_completed_at step) = true.

(** The order the comparator of the sort induces. *)
Definition le_created (a b : Step) : Prop := step_created_at a <= step_created_at b.

End TimelineVocabulary.

(** ** Vocabulary for the formatter *)

Section FormatterVocabulary.

Local Open Scope string_scope.
Local Open Scope Z_scope.

(** [f] holds on the [n] integers from [z] on. *)
Fixpoint holds_from (f : Z -> bool) (n : nat) (z : Z) : bool :=
  match n with
  | O => true
  | S n' => f z && holds_from f n' (z + 1)
  end.

End FormatterVocabulary.

(** ** Claims of the specification, as stated *)

(** The Segment invariants are claimed for every run and every list of
    steps in ascending order of start. *)
Definition timeline_invariant_claim : Prop :=
  forall (r : Run) (sel : option Z),
    sorted_by_start (run_steps r) ->
    timeline_invariant (run_completed_at r - run_started_at r)
                       (prepareTimelineData (Some r) sel).

(** The gap rule is claimed with a cursor that only moves forward. *)
Definition cursor_rule_claim : Prop :=
  forall (r : Run) (sel : option Z) (i : nat),
    sorted_by_start (run_steps r) ->
    (i < length (run_steps r))%nat ->
    gap_before (Z.of_nat i) (prepareTimelineData (Some r) sel)
    = nth i (gap_flags Z.max (run_started_at r) (run_completed_at r) 0 (run_steps r)) false.

(** Normalization is claimed to multiply every raw integer by 1000, here
    for the end of the run. *)
Definition run_end_times_1000_claim : Prop :=
  forall (env : Env) (c s : State) (runInfo : RunInfo) (stepsData : StepsData) (t : Z),
    ri_completed_at runInfo = Some t ->
    exists r, runData (final_state (exec env (storeRun c (Some runInfo) (Some stepsData)) s)) = Some r
              /\ run_completed_at r = t * 1000.

(** A fetch that passes validation is claimed to leave no selection. *)
Definition fetch_clears_selection_claim : Prop :=
  forall (env : Env) (s : State),
    is_empty (runId s) || is_empty (threadId s) || is_empty (apiKey s) = false ->
    selectedStepIndex (final_state (exec env (fetchRunData s) s)) = None.

(** ** Sample inputs *)

Section Samples.

Local Open Scope string_scope.
Local Open Scope Z_scope.

Definition sample_step (name : string) (created_s : Z) (completed : option Z) : Step :=
  {| step_id := "step_" ++ name;
     step_type := Some name;
     step_status := Some "completed";
     step_created_at := created_s;
     step_started_at := created_s * 1000;
     step_completed_at := completed;
     step_details := "{}" |}.

Definition sample_run (started completed : Z) (steps : list Step) : Run :=
  {| run_id := "run_1";
     run_thread_id := "thread_1";
     run_assistant_id := "asst_1";
     run_status := "completed";
     run_started_at := started;
     run_completed_at := completed;
     run_steps := steps |}.

(** The scenario of the specification: a run over [0, 10000] with the
    steps a = [0, 3000] and b = [5000, 8000]. *)
Definition scenario_run : Run :=
  sample_run 0 10000 [sample_step "a" 0 (Some 3000); sample_step "b" 5 (Some 8000)].

(** A step that ends two seconds after its run. *)
Definition late_step_run : Run :=
  sample_run 0 10000 [sample_step "a" 2 (Some 12000)].

(** Two short steps inside a long one. *)
Definition nested_run : Run :=
  sample_run 0 10000
    [sample_step "a" 0 (Some 10000); sample_step "b" 1 (Some 2000);
     sample_step "c" 3 (Some 4000)].

(** A run in progress: its last step has no end yet. *)
Definition running_run : Run :=
  sample_run 1000 5000 [sample_step "a" 1 None].

Definition sample_state (r : option Run) (sel : option Z) : State :=
  {| runId := "run_1"; threadId := "thread_1"; assistantId := ""; apiKey := "sk-test";
     debugMode := false; debugInfo := None; runData := r; loading := false;
     error := None; selectedStepIndex := sel |}.

(** The state of a form whose run id was left empty, with an earlier
    selection and earlier run data still in place. *)
Definition state_without_run_id : State :=
  {| runId := ""; threadId := "thread_1"; assistantId := ""; apiKey := "sk-test";
     debugMode := true; debugInfo := None; runData := Some scenario_run;
     loading := false; error := None; selectedStepIndex := Some 1 |}.

Definition sample_runInfo (completed : option Z) : RunInfo :=
  {| ri_id := "run_1"; ri_thread_id := "thread_1"; ri_assistant_id := Some "asst_1";
     ri_status := "completed"; ri_created_at := 100; ri_completed_at := completed |}.

Definition sample_rawStep (name : string) (created : Z) (completed : option Z) : RawStep :=
  {| rs_id := "step_" ++ name; rs_type := Some name; rs_status := Some "completed";
     rs_created_at := created; rs_completed_at := completed; rs_step_details := "{}" |}.

(** A data source that answers both requests successfully. *)
Definition sample_env (completed : option Z) (steps : list RawStep) (now : Z) : Env :=
  {| env_run := fun _ _ =>
       Replied (mkResponse true 200 "OK" "{...}" (Some (sample_runInfo completed)));
     env_steps := fun _ _ =>
       Replied (mkResponse true 200 "OK" "{...}" (Some (mkStepsData steps)));
     env_now := now |}.

End Samples.

(** * More of the component *)

(** ** Saved inputs (lines 179-199 and 626-635) *)

Section SavedInputs.

Local Open Scope string_scope.

Definition key_run_id : string := "openai_debug_run_id".
Definition key_thread_id : string := "openai_debug_thread_id".
Definition key_assistant_id : string := "openai_debug_assistant_id".
Definition key_api_key : string := "openai_debug_api_key".
Definition key_mode : string := "openai_debug_mode".

(** [localStorage.getItem(key) || ''] *)
Definition getItem_or_empty (storage : gmap string string) (key : string) : string :=
  match storage !! key with
  | Some v => v
  | None => ""
  end.

(** The initial values of the [useState] cells (lines 179-188). *)
Definition initialState (storage : gmap string string) : State :=
  {| runId := getItem_or_empty storage key_run_id;
     threadId := getItem_or_empty storage key_thread_id;
     assistantId := getItem_or_empty storage key_assistant_id;
     apiKey := getItem_or_empty storage key_api_key;
     debugMode := match storage !! key_mode with
                  | Some v => String.eqb v "true"
                  | None => false
                  end;
     debugInfo := None;
     runData := None;
     loading := false;
     error := None;
     selectedStepIndex := None |}.

(** [if (value) localStorage.setItem(key, value)] *)
Definition setItem_if (key value : string) (storage : gmap string string)
  : gmap string string :=
  if is_empty value then storage else <[key := value]> storage.

(** The effect of lines 193-199, run after a render with state [s]. The
    flag is stored as the text of the boolean. *)
Definition saveInputs (s : State) (storage : gmap string string) : gmap string string :=
  let storage := setItem_if key_run_id (runId s) storage in
  let storage := setItem_if key_thread_id (threadId s) storage in
  let storage := setItem_if key_assistant_id (assistantId s) storage in
  let storage := setItem_if key_api_key (apiKey s) storage in
  <[key_mode := if debugMode s then "true" else "false"]> storage.

(** The listener of the button "Clear Saved Data" (lines 626-635). *)
Definition clearSavedData (s : State) (storage : gmap string string)
  : State * gmap string string :=
  let storage := delete key_run_id storage in
  let storage := delete key_thread_id storage in
  let storage := delete key_assistant_id storage in
  let storage := delete key_api_key storage in
  (mkState "" "" "" "" (debugMode s) (debugInfo s) (runData s) (loading s) (error s)
           (selectedStepIndex s),
   storage).

End SavedInputs.

(** ** formatTime (lines 6-15) *)

Section FormatTime.

Local Open Scope string_scope.
Local Open Scope Z_scope.

(** [date.toLocaleTimeString()] depends on the locale and the time zone of
    the browser; it is a parameter. *)
Variable toLocaleTimeString : Z -> string.

(** The largest time value of a [Date]; beyond it the date is invalid. *)
Definition maxTimeValue : Z := 8640000000000000.

(** [s.padStart(3, '0')] *)
Definition padStart3 (s : string) : string :=
  Number.zeros (3 - String.length s) ++ s.

Definition formatTime (timestamp : option Z) : string :=
  if negb (truthy timestamp) then "N/A"
  else
    let t := num timestamp in
    if maxTimeValue <? Z.abs t then
      (* an invalid date: [getMilliseconds()] is [NaN] *)
      "Invalid Date" ++ "." ++ padStart3 "NaN"
    else
      let milliseconds := t mod 1000 in
      (* Remove .000 if milliseconds are zero *)
      if milliseconds =? 0 then toLocaleTimeString t
      else toLocaleTimeString t ++ "." ++ padStart3 (show milliseconds).

End FormatTime.

(** ** The bars of the chart (lines 98-124) and the cards of the list *)

Section Bars.

Local Open Scope string_scope.
Local Open Scope Z_scope.

(** [d3.scaleOrdinal().domain(values)]: the distinct values in the order
    of their first occurrence. *)
Definition ordinalDomain (values : list Z) : list Z :=
  fold_left (fun domain v => if bool_decide (v ∈ domain) then domain else app domain [v])
            values [].

(** The position of [d] in the domain; a value not in it is appended, so
    it gets the next position. *)
Fixpoint ordinalIndex (domain : list Z) (d : Z) : nat :=
  match domain with
  | [] => O
  | v :: domain' => if v =? d then O else S (ordinalIndex domain' d)
  end.

(** The scale applied to [d]: [range[i % range.length]]. *)
Definition scaleOrdinal (values : list Z) (range : list string) (d : Z) : string :=
  nth (ordinalIndex (ordinalDomain values) d mod length range)%nat range "".

Definition palette : list string :=
  ["#8884d8"; "#82ca9d"; "#ffc658"; "#ff8042"; "#0088fe"].

(** Lines 99-101. *)
Definition colorScale (data : list Segment) : Z -> string :=
  scaleOrdinal (map seg_index data) palette.

(** Lines 115-118: the [fill] of the bar of [d]. *)
Definition barFill (data : list Segment) (d : Segment) : string :=
  if seg_isGap d then "#e0e0e0"
  else
    match seg_isSelected d with
    | Some true => "#ff0000"
    | _ => colorScale data (seg_index d)
    end.

(** Line 758: the classes that depend on the selection, for the card of the
    step at [index]. *)
Definition cardClass (selectedStepIndex : option Z) (index : nat) : string :=
  if is_selected selectedStepIndex (Z.of_nat index)
  then "border-red-500 bg-red-50" else "border-gray-300".

End Bars.

(** ** The requests of a fetch *)

Section Requests.

Local Open Scope string_scope.

(** The two URLs built by [fetchRunData] (lines 295 and 349). *)
Definition runUrlOf (c : State) : string :=
  "https://api.openai.com/v1/threads/" ++ threadId c ++ "/runs/" ++ runId c.
Definition stepsUrlOf (c : State) : string :=
  "https://api.openai.com/v1/threads/" ++ threadId c ++ "/runs/" ++ runId c
    ++ "/steps?limit=100".

(** The answers of the data source to the requests of the fetch created
    with state [c]. *)
Definition runReply (env : Env) (c : State) : FetchResult RunInfo :=
  env_run env (runUrlOf c) (requestHeaders (apiKey c)).
Definition stepsReply (env : Env) (c : State) : FetchResult StepsData :=
  env_steps env (stepsUrlOf c) (requestHeaders (apiKey c)).

(** A response with a success status. *)
Definition replied_ok {A : Type} (r : FetchResult A) : bool :=
  match r with
  | Replied resp => resp_ok resp
  | Rejected _ => false
  end.


Definition is_fetch (ev : Event) : bool :=
  match ev with EvFetch _ _ => true | _ => false end.

(** The inputs pass the guard of line 283. *)
Definition inputs_present (c : State) : Prop :=
  runId c <> "" /\ threadId c <> "" /\ apiKey c <> "".

(** The run that a successful fetch stores. *)
Definition processedData (c : State) (now : Z) (runInfo : RunInfo) (stepsData : StepsData)
  : Run :=
  {| run_id := ri_id runInfo;
     run_thread_id := ri_thread_id runInfo;
     run_assistant_id := or_else (ri_assistant_id runInfo) (assistantId c);
     run_status := ri_status runInfo;
     run_started_at := ri_created_at runInfo * 1000;
     run_completed_at :=
       if truthy (ri_completed_at runInfo)
       then num (ri_completed_at runInfo) * 1000 else now;
     run_steps := sortSteps (map transformStep (sd_data stepsData)) |}.

End Requests.

(** ** The earlier variant of the component *)

(** The second source file is an earlier version: its timeline has one
    datum per step and no gaps, its bars are coloured by index. *)
Module Earlier.

Local Open Scope string_scope.
Local Open Scope Z_scope.

Definition formatDuration (ms : jsval) : string :=
  if negb (ToBoolean ms) || isNaN ms then "N/A"
  else
    let ms := ToNumber ms in
    if Number.ltb ms (Number.of_Z 1000) then Number.toString ms ++ "ms"
    else Number.toFixed 2 (Number.div ms (Number.of_Z 1000)) ++ "s".

(** One datum of the bar chart; it has no [isGap] and no [isSelected]. *)
Record Datum : Type := mkDatum {
  d_name : string;
  d_actualStart : Z;
  d_duration : Z;
  d_actualEnd : Z;
  d_index : Z;
  d_durationLabel : string
}.

Definition prepareTimelineData (runData : option Run) : list Datum :=
  match runData with
  | None => []
  | Some runData =>
      let startTime := run_started_at runData in
      let totalDuration := run_completed_at runData - startTime in
      imap (fun index step =>
              let actualStart := step_started_at step - startTime in
              let actualEnd :=
                if truthy (step_completed_at step)
                then num (step_completed_at step) - startTime
                else totalDuration in
              let duration := actualEnd - actualStart in
              {| d_name := show (Z.of_nat index + 1) ++ ". "
                             ++ or_else (step_type step) "Unknown";
                 d_actualStart := actualStart;
                 d_duration := duration;
                 d_actualEnd := actualEnd;
                 d_index := Z.of_nat index;
                 d_durationLabel := formatDuration (JInt duration) |})
           (run_steps runData)
  end.

End Earlier.

(** ** Vocabulary for the properties below *)

Section MoreVocabulary.

Local Open Scope Z_scope.

(** The fields a segment shares with a datum of the earlier variant. *)
Definition toDatum (d : Segment) : Z * Z * Z * Z * string :=
  (seg_index d, seg_actualStart d, seg_duration d, seg_actualEnd d, seg_name d).
Definition ofDatum (d : Earlier.Datum) : Z * Z * Z * Z * string :=
  (Earlier.d_index d, Earlier.d_actualStart d, Earlier.d_duration d,
   Earlier.d_actualEnd d, Earlier.d_name d).

Definition is_step (d : Segment) : bool := negb (seg_isGap d).

(** The sum of the durations of a list of segments. *)
Definition total_duration (segs : list Segment) : Z :=
  fold_right (fun d acc => seg_duration d + acc) 0 segs.

(** Steps that do not overlap: each ends no later than the next starts. *)
Definition disjoint_steps (steps : list Step) : Prop :=
  chain (fun a b => num (step_completed_at a) <= step_started_at b) steps.

(** A sample for [toLocaleTimeString]: the 24-hour time of day in UTC. *)
Definition utcTimeString (t : Z) : string :=
  let two (n : Z) := ((if (n <? 10)%Z then "0" else "") ++ show n)%string in
  let seconds := (t / 1000) mod 86400 in
  (two (seconds / 3600) ++ ":" ++ two (seconds / 60 mod 60) ++ ":" ++ two (seconds mod 60))%string.

(** One step of the construction of the domain of an ordinal scale. *)
Definition addToDomain (domain : list Z) (v : Z) : list Z :=
  if bool_decide (v ∈ domain) then domain else app domain [v].

(** Does a gap come before the bar of the step with index [i]? *)
Fixpoint gap_precedes (i : Z) (data : list Segment) : bool :=
  match data with
  | [] => false
  | d :: rest =>
      if is_step d && (seg_index d =? i) then false
      else seg_isGap d || gap_precedes i rest
  end.

(** The steps created at the epoch second [k], in the order of the list. *)
Definition created_at_second (k : Z) (l : list Step) : list Step :=
  filter (fun a => step_created_at a = k) l.

End MoreVocabulary.

(** * Properties *)

(** ** The formatter *)

Section FormatDurationFacts.

Local Open Scope string_scope.

Lemma of_Z_1000 : Number.of_Z 1000 = S754_finite false 8796093022208000 (-43).
Proof. vm_compute. reflexivity. Qed.

Lemma of_Z_60 : Number.of_Z 60 = S754_finite false 8444249301319680 (-47).
Proof. vm_compute. reflexivity. Qed.

Lemma of_Z_0 : Number.of_Z 0 = S754_zero false.
Proof. reflexivity. Qed.

(** The Number model on values whose JavaScript results are well known. *)
Example toString_examples :
  map Number.toString
      [Number.of_ratio 1 10; Number.of_ratio 3 2; Number.of_ratio 1 3;
       Number.of_Z (-500); Number.of_Z (2 ^ 60); Number.of_Z (10 ^ 21);
       Number.of_ratio 1 10000000; S754_finite false 1 (-1074)]
  = ["0.1"; "1.5"; "0.3333333333333333"; "-500"; "1152921504606847000"; "1e+21";
     "1e-7"; "5e-324"].
Proof. vm_compute. reflexivity. Qed.

Example toFixed_examples :
  map (Number.toFixed 1)
      [Number.of_ratio 115 100; Number.of_ratio 125 100; Number.of_ratio 4 100;
       SFopp (Number.of_ratio 4 100); Number.of_Z 3]
  = ["1.1"; "1.3"; "0.0"; "-0.0"; "3.0"].
Proof. vm_compute. reflexivity. Qed.

Example Math_examples :
  map Number.toString
      [Number.Math_round (Number.of_ratio 5 2); Number.Math_round (SFopp (Number.of_ratio 5 2));
       Number.Math_floor (SFopp (Number.of_ratio 1 4));
       Number.rem (Number.of_ratio 1205 10) (Number.of_Z 60)]
  = ["3"; "-2"; "-1"; "0.5"]
  /\ Number.Math_round (SFopp (Number.of_ratio 1 4)) = S754_zero true.
Proof. vm_compute. split; reflexivity. Qed.

(** [null], [undefined] and [NaN] are rendered as "N/A". *)
Lemma formatDuration_null_NaN :
  formatDuration JNull = "N/A" /\ formatDuration JUndefined = "N/A"
  /\ formatDuration (JNum S754_nan) = "N/A".
Proof. repeat split. Qed.

(** The guard [!ms] also catches both zeros. *)
Lemma formatDuration_zero (s : bool) : formatDuration (JNum (S754_zero s)) = "N/A".
Proof. reflexivity. Qed.

(** Below 1000 (and not zero) the millisecond branch is taken, whatever
    the sign. *)
Lemma formatDuration_below_1000 (x : spec_float) :
  Number.to_boolean x = true ->
  Number.ltb x (Number.of_Z 1000) = true ->
  formatDuration (JNum x) = Number.toString (Number.Math_round x) ++ "ms".
Proof.
  intros Ht Hlt. unfold formatDuration.
  assert (Hn : isNaN (JNum x) = false) by (destruct x; try reflexivity; discriminate).
  cbn [ToBoolean ToNumber]. rewrite Ht, Hn. cbn [negb orb]. rewrite Hlt. reflexivity.
Qed.

(** From one second up to one minute: whole seconds print as an integer,
    anything else with one fraction digit. *)
Lemma formatDuration_seconds (x : spec_float) :
  Number.to_boolean x = true ->
  Number.ltb x (Number.of_Z 1000) = false ->
  Number.ltb (Number.div x (Number.of_Z 1000)) (Number.of_Z 60) = true ->
  let totalSeconds := Number.div x (Number.of_Z 1000) in
  formatDuration (JNum x) =
    (if Number.strict_eq (Number.Math_floor totalSeconds) totalSeconds
     then Number.toString (Number.Math_floor totalSeconds)
     else Number.toFixed 1 totalSeconds) ++ "s".
Proof.
  intros Ht Hge Hlt. unfold formatDuration.
  assert (Hn : isNaN (JNum x) = false) by (destruct x; try reflexivity; discriminate).
  cbn [ToBoolean ToNumber]. rewrite Ht, Hn. cbn [negb orb]. rewrite Hge, Hlt. reflexivity.
Qed.

(** The values the specification lists. *)
Lemma formatDuration_samples :
  map formatDuration [JInt 999; JInt 1000; JInt 1500; JInt 60000; JInt 90000]
  = ["999ms"; "1s"; "1.5s"; "1m"; "1m 30s"].
Proof. vm_compute. reflexivity. Qed.

Lemma holds_from_spec (f : Z -> bool) (n : nat) : forall z x,
  holds_from f n z = true -> z <= x < z + Z.of_nat n -> f x = true.
Proof.
  induction n as [|n IH]; intros z x H Hx; [lia|].
  cbn [holds_from] in H. apply andb_true_iff in H. destruct H as [Hz H].
  destruct (Z.eq_dec x z) as [->|Hne]; [exact Hz|].
  apply (IH (z + 1)); [exact H | lia].
Qed.

Lemma holds_from_range (f : Z -> bool) (lo hi x : Z) :
  holds_from f (Z.to_nat (hi - lo)) lo = true -> lo <= x < hi -> f x = true.
Proof.
  intros H Hx. apply (holds_from_spec f (Z.to_nat (hi - lo)) lo); [exact H|].
  rewrite Z2Nat.id; lia.
Qed.

(** Every whole number of milliseconds from 1 to 999 is printed as it is. *)
Lemma formatDuration_milliseconds (ms : Z) :
  0 < ms < 1000 -> formatDuration (JInt ms) = Number.digits ms ++ "ms".
Proof.
  intros Hms.
  apply String.eqb_eq.
  apply (holds_from_range
           (fun z => String.eqb (formatDuration (JInt z)) (Number.digits z ++ "ms"))
           1 1000); [vm_cast_no_check (eq_refl true) | lia].
Qed.

(** The rounded remainder of the seconds is not carried into the minutes. *)
Lemma formatDuration_no_carry : formatDuration (JInt 119999) = "1m 60s".
Proof. vm_compute. reflexivity. Qed.

(** [toFixed] rounds the binary value of the quotient, not the decimal
    one: 1.15 is stored slightly below, 1.25 exactly. *)
Lemma formatDuration_ties :
  map formatDuration [JInt 1150; JInt 1250; JInt 59950] = ["1.1s"; "1.3s"; "60.0s"].
Proof. vm_compute. reflexivity. Qed.

End FormatDurationFacts.

(** ** The timeline as a recursion *)

Section TimelineShape.

Variables (startTime endTime : Z) (sel : option Z).

Lemma forEachStep_from (pre l : list Step) :
  concat (imap (fun index step =>
                  stepSegment startTime endTime sel (length pre + index) step
                    :: gapAfter startTime step ((pre ++ l) !! S (length pre + index)))
               l)
  = segmentsFrom startTime endTime sel (length pre) l.
Proof.
  revert pre. induction l as [|x l IH]; intros pre; [reflexivity|].
  cbn [imap concat segmentsFrom app].
  rewrite Nat.add_0_r.
  replace ((pre ++ x :: l) !! S (length pre)) with (head l).
  2:{ rewrite lookup_app_r by lia.
      replace (S (length pre) - length pre)%nat with 1%nat by lia.
      cbn. now rewrite head_lookup. }
  do 2 f_equal.
  specialize (IH (pre ++ [x])).
  rewrite length_app in IH. cbn [length] in IH.
  replace (length pre + 1)%nat with (S (length pre)) in IH by lia.
  rewrite <- IH. f_equal. apply imap_ext. intros i y _. cbn.
  replace (length pre + S i)%nat with (S (length pre + i)) by lia.
  now rewrite <- app_assoc.
Qed.

Lemma forEachStep_segmentsFrom (steps : list Step) :
  forEachStep startTime endTime sel steps = segmentsFrom startTime endTime sel 0 steps.
Proof. exact (forEachStep_from [] steps). Qed.

Lemma segmentsFrom_trailing (rest : list Step) : forall step index,
  (segmentsFrom startTime endTime sel index (step :: rest)
     ++ trailingGap startTime endTime (step :: rest))%list
  = stepSegment startTime endTime sel index step
      :: segmentsAfter startTime endTime sel (num (step_completed_at step)) (S index) rest.
Proof.
  induction rest as [|next rest IH]; intros step index.
  - cbn. destruct (num (step_completed_at step) <? endTime); reflexivity.
  - change (segmentsFrom startTime endTime sel index (step :: next :: rest))
      with (stepSegment startTime endTime sel index step
              :: gapAfter startTime step (Some next)
              ++ segmentsFrom startTime endTime sel (S index) (next :: rest))%list.
    change (trailingGap startTime endTime (step :: next :: rest))
      with (trailingGap startTime endTime (next :: rest)).
    cbn [app]. rewrite <- app_assoc, IH. reflexivity.
Qed.

(** The timeline of a non-empty step list. *)
Lemma timelineOf_segmentsAfter (step : Step) (rest : list Step) :
  timelineOf startTime endTime sel (step :: rest)
  = segmentsAfter startTime endTime sel startTime 0 (step :: rest).
Proof.
  unfold timelineOf. rewrite forEachStep_segmentsFrom, segmentsFrom_trailing.
  cbn [initialGap segmentsAfter]. rewrite Z.gtb_ltb.
  destruct (startTime <? step_started_at step); [|reflexivity].
  now rewrite Z.sub_diag, Z.sub_0_r.
Qed.

End TimelineShape.

Lemma prepareTimelineData_segmentsAfter (r : Run) (sel : option Z) :
  run_steps r <> [] ->
  prepareTimelineData (Some r) sel
  = segmentsAfter (run_started_at r) (run_completed_at r) sel
                  (run_started_at r) 0 (run_steps r).
Proof.
  intros Hne. unfold prepareTimelineData.
  destruct (run_steps r) as [|step rest]; [contradiction|].
  apply timelineOf_segmentsAfter.
Qed.

(** ** Gaps *)

Section TimelineFacts.

Variables (startTime endTime : Z) (sel : option Z).

Lemma segmentsAfter_gap_positive (steps : list Step) : forall prev index d,
  d ∈ segmentsAfter startTime endTime sel prev index steps ->
  seg_isGap d = true -> 0 < seg_duration d.
Proof.
  induction steps as [|step rest IH]; intros prev index d Hin Hgap; cbn in Hin.
  - destruct (prev <? endTime) eqn:Hlt.
    + apply list_elem_of_singleton in Hin. subst d. cbn.
      apply Z.ltb_lt in Hlt. lia.
    + now apply elem_of_nil in Hin.
  - apply elem_of_app in Hin. destruct Hin as [Hin|Hin].
    + destruct (prev <? step_started_at step) eqn:Hlt.
      * apply list_elem_of_singleton in Hin. subst d. cbn.
        apply Z.ltb_lt in Hlt. lia.
      * now apply elem_of_nil in Hin.
    + apply elem_of_cons in Hin. destruct Hin as [->|Hin].
      * discriminate Hgap.
      * eapply IH; eassumption.
Qed.

(** *** Order and contiguity *)

Lemma chain_lookup {A : Type} (R : A -> A -> Prop) (l : list A) :
  chain R l -> forall i a b, l !! i = Some a -> l !! S i = Some b -> R a b.
Proof.
  induction l as [|x l IH]; intros Hc i a b Ha Hb; [discriminate|].
  destruct l as [|y l]; [discriminate|].
  destruct Hc as [Hxy Hc]. destruct i as [|i].
  - cbn in Ha, Hb. congruence.
  - exact (IH Hc i a b Ha Hb).
Qed.

Lemma segmentsAfter_chain (steps : list Step) : forall prev index a,
  Forall (within_run startTime endTime) steps ->
  sorted_by_start steps ->
  seg_isGap a = false ->
  seg_actualStart a <= seg_actualEnd a ->
  seg_actualEnd a = prev - startTime ->
  (forall s, head steps = Some s -> seg_actualStart a <= step_started_at s - startTime) ->
  chain adjacent_ok (a :: segmentsAfter startTime endTime sel prev index steps).
Proof.
  induction steps as [|step rest IH]; intros prev index a Hin Hsort Hstep Hle Hend Hhead.
  - cbn. destruct (prev <? endTime); cbn; [|exact I].
    split; [|exact I]. split; [cbn; lia | left; exact Hend].
  - apply Forall_cons in Hin. destruct Hin as [(Htr & Hs0 & Hsc & Hce) Hin].
    specialize (Hhead step eq_refl).
    assert (Htail :
      chain adjacent_ok
        (stepSegment startTime endTime sel index step
           :: segmentsAfter startTime endTime sel
                (num (step_completed_at step)) (S index) rest)).
    { apply IH; trivial.
      - destruct rest; [exact I | apply Hsort].
      - cbn. rewrite Htr. lia.
      - cbn. now rewrite Htr.
      - intros s Hs. destruct rest as [|s' rest]; [discriminate|].
        injection Hs as ->. cbn. destruct Hsort as [Hsort _]. lia. }
    cbn [segmentsAfter]. destruct (prev <? step_started_at step) eqn:Hlt.
    + apply Z.ltb_lt in Hlt. cbn [app chain]. repeat split; trivial.
      * cbn. lia.
      * left. cbn. exact Hend.
      * cbn. lia.
      * left. reflexivity.
    + apply Z.ltb_ge in Hlt. cbn [app chain]. split; [|exact Htail].
      split; [exact Hhead|].
      destruct (Z.eq_dec prev (step_started_at step)) as [->|Hne].
      * left. exact Hend.
      * right. repeat split; trivial. cbn. lia.
Qed.

Lemma segmentsAfter_last (steps : list Step) : forall prev index a b,
  Forall (within_run startTime endTime) steps ->
  seg_actualEnd a = prev - startTime ->
  prev <= endTime ->
  last (a :: segmentsAfter startTime endTime sel prev index steps) = Some b ->
  seg_actualEnd b = endTime - startTime.
Proof.
  induction steps as [|step rest IH]; intros prev index a b Hin Hend Hle Hlast.
  - cbn in Hlast. destruct (prev <? endTime) eqn:Hlt.
    + injection Hlast as <-. reflexivity.
    + apply Z.ltb_ge in Hlt. injection Hlast as <-. lia.
  - apply Forall_cons in Hin. destruct Hin as [(Htr & Hs0 & Hsc & Hce) Hin].
    cbn [segmentsAfter] in Hlast.
    rewrite app_comm_cons, last_app_cons in Hlast.
    eapply IH; [exact Hin | | exact Hce | exact Hlast].
    cbn. now rewrite Htr.
Qed.

(** *** Where gaps are placed *)

Lemma gap_before_step (i : Z) (a : Segment) (l : list Segment) :
  seg_isGap a = false -> gap_before i (a :: l) = gap_before i l.
Proof. intros Ha. destruct l; cbn; [reflexivity|]. now rewrite Ha. Qed.

Lemma gap_before_cons (i : Z) (g a : Segment) (l : list Segment) :
  gap_before i (g :: a :: l)
  = (seg_isGap g && negb (seg_isGap a) && (seg_index a =? i)) || gap_before i (a :: l).
Proof. reflexivity. Qed.

Lemma gap_before_segmentsAfter (steps : list Step) : forall prev index i,
  Forall resolved steps ->
  gap_before (Z.of_nat i) (segmentsAfter startTime endTime sel prev index steps)
  = if (index <=? i)%nat
    then nth (i - index)
             (gap_flags (fun _ e => e) startTime endTime (prev - startTime) steps) false
    else false.
Proof.
  induction steps as [|step rest IH]; intros prev index i Hres.
  - cbn. destruct (prev <? endTime), (index <=? i)%nat, (i - index)%nat; reflexivity.
  - apply Forall_cons in Hres. destruct Hres as [Hr Hres].
    cbn [segmentsAfter gap_flags].
    assert (Hflag : (prev - startTime <? rel_start startTime step)
                    = (prev <? step_started_at step)).
    { unfold rel_start. apply eq_true_iff_eq. rewrite !Z.ltb_lt. lia. }
    assert (Hend : rel_end startTime endTime step
                   = num (step_completed_at step) - startTime).
    { unfold rel_end. now rewrite Hr. }
    rewrite Hflag, Hend.
    specialize (IH (num (step_completed_at step)) (S index) i Hres).
    destruct (prev <? step_started_at step) eqn:Hlt; cbn [app].
    + rewrite gap_before_cons, gap_before_step by reflexivity. rewrite IH.
      cbn [seg_isGap gapSegment stepSegment seg_index negb andb orb].
      destruct (Nat.leb_spec index i) as [Hle|Hgt].
      * destruct (Nat.eq_dec index i) as [->|Hne].
        -- rewrite Z.eqb_refl, Nat.sub_diag. reflexivity.
        -- replace (Z.of_nat index =? Z.of_nat i) with false
             by (symmetry; apply Z.eqb_neq; lia).
           replace (i - index)%nat with (S (i - S index)) by lia.
           destruct (Nat.leb_spec (S index) i); [reflexivity | lia].
      * replace (Z.of_nat index =? Z.of_nat i) with false
          by (symmetry; apply Z.eqb_neq; lia).
        destruct (Nat.leb_spec (S index) i); [lia | reflexivity].
    + rewrite gap_before_step by reflexivity. rewrite IH.
      destruct (Nat.leb_spec index i) as [Hle|Hgt].
      * destruct (Nat.eq_dec index i) as [->|Hne].
        -- rewrite Nat.sub_diag.
           destruct (Nat.leb_spec (S i) i); [lia | reflexivity].
        -- replace (i - index)%nat with (S (i - S index)) by lia.
           destruct (Nat.leb_spec (S index) i); [reflexivity | lia].
      * destruct (Nat.leb_spec (S index) i); [lia | reflexivity].
Qed.

(** When no step ends before an earlier one, the cursor of the
    specification is the end of the previous step, and the two rules agree. *)
Lemma gap_flags_max_agrees (steps : list Step) : forall cursor,
  chain (fun a b => rel_end startTime endTime a <= rel_end startTime endTime b) steps ->
  (forall s, head steps = Some s -> cursor <= rel_end startTime endTime s) ->
  gap_flags Z.max startTime endTime cursor steps
  = gap_flags (fun _ e => e) startTime endTime cursor steps.
Proof.
  induction steps as [|step rest IH]; intros cursor Hc Hhead; [reflexivity|].
  cbn [gap_flags]. f_equal.
  rewrite Z.max_r by (now apply Hhead).
  apply IH.
  - destruct rest; [exact I | apply Hc].
  - intros s Hs. destruct rest as [|s' rest]; [discriminate|].
    injection Hs as ->. apply Hc.
Qed.

End TimelineFacts.

(** ** The claims about the timeline *)

Section TimelineClaims.

Local Open Scope string_scope.
Local Open Scope Z_scope.

(** C3. For the run over [0, 10000] with the steps a = [0, 3000] and
    b = [5000, 8000], whatever the other fields and the selection, the
    timeline is exactly: step a over 0-3000, a gap over 3000-5000, step b
    over 5000-8000, a gap over 8000-10000. With no steps (or no run) the
    timeline is empty: no gap is made up. *)
Theorem scenario_two_steps
  (rid tid aid status ia ib da db : string) (sa sb : option string) (ca cb : Z)
  (started completed : Z) (sel : option Z) :
  prepareTimelineData
    (Some (mkRun rid tid aid status 0 10000
             [mkStep ia (Some "a") sa ca 0 (Some 3000) da;
              mkStep ib (Some "b") sb cb 5000 (Some 8000) db]))
    sel
  = [ mkSegment "1. a" 0 3000 3000 0 (Some (is_selected sel 0)) false "3s";
      mkSegment "<unknown>" 3000 2000 5000 (-1) None true "2s";
      mkSegment "2. b" 5000 3000 8000 1 (Some (is_selected sel 1)) false "3s";
      mkSegment "<unknown>" 8000 2000 10000 (-1) None true "2s" ]
  /\ prepareTimelineData (Some (mkRun rid tid aid status started completed [])) sel = []
  /\ prepareTimelineData None sel = [].
Proof. repeat split. Qed.

(** C4. Whatever the run and its steps (ends unresolved or not, steps
    overlapping or not), every gap of the timeline has a positive
    duration. *)
Theorem gap_duration_positive (runData : option Run) (sel : option Z) (d : Segment) :
  d ∈ prepareTimelineData runData sel ->
  seg_isGap d = true ->
  0 < seg_duration d.
Proof.
  intros Hin Hgap. destruct runData as [r|]; [|now apply elem_of_nil in Hin].
  destruct (run_steps r) as [|step rest] eqn:Hsteps.
  - unfold prepareTimelineData in Hin. rewrite Hsteps in Hin.
    now apply elem_of_nil in Hin.
  - rewrite prepareTimelineData_segmentsAfter in Hin by (rewrite Hsteps; discriminate).
    eapply segmentsAfter_gap_positive; eassumption.
Qed.

Lemma gap_duration_positive_witness :
  gapSegment 3000 2000 5000 ∈ prepareTimelineData (Some scenario_run) None
  /\ seg_isGap (gapSegment 3000 2000 5000) = true
  /\ 0 < seg_duration (gapSegment 3000 2000 5000).
Proof.
  assert (Hin : gapSegment 3000 2000 5000 ∈ prepareTimelineData (Some scenario_run) None).
  { apply elem_of_cons. right. apply elem_of_cons. left. reflexivity. }
  split; [exact Hin|]. split; [reflexivity|].
  exact (gap_duration_positive (Some scenario_run) None _ Hin eq_refl).
Defined.

(** C1, as stated, fails: a step that ends after its run is the last
    segment, and its end offset (12000) is not the run's duration
    (10000). *)
Lemma timeline_invariant_fails_late_step :
  sorted_by_start (run_steps late_step_run)
  /\ option_map seg_actualEnd (last (prepareTimelineData (Some late_step_run) None))
     = Some 12000
  /\ ~ timeline_invariant
         (run_completed_at late_step_run - run_started_at late_step_run)
         (prepareTimelineData (Some late_step_run) None)
  /\ ~ timeline_invariant_claim.
Proof.
  assert (Hfails : ~ timeline_invariant
                       (run_completed_at late_step_run - run_started_at late_step_run)
                       (prepareTimelineData (Some late_step_run) None)).
  { intros (_ & _ & Hlast).
    specialize (Hlast _ eq_refl). vm_compute in Hlast. discriminate Hlast. }
  split; [exact I|]. split; [reflexivity|]. split; [exact Hfails|].
  intros Hclaim. exact (Hfails (Hclaim late_step_run None I)).
Qed.

(** A run in progress: the last step has no end yet. Its segment is
    closed at the run's end, but the test for the trailing gap (line 264)
    reads the [null] end as 0, and a gap from offset [-startTime] is
    added. The amended claims below leave such steps out. *)
Lemma unresolved_end_trailing_gap :
  map (fun d => (seg_isGap d, seg_actualStart d, seg_duration d, seg_actualEnd d))
      (prepareTimelineData (Some running_run) None)
  = [(false, 0, 4000, 4000); (true, -1000, 5000, 4000)].
Proof. reflexivity. Qed.

(** C1, amended. For a run whose steps are in ascending order of start,
    each with a resolved end and inside the run (run start <= step start
    <= step end <= run end), the timeline is ordered by start offset,
    adjacent segments are contiguous unless they are two overlapping
    steps, the first segment starts at offset 0 and the last one ends at
    the run's duration. *)
Theorem timeline_invariant_within_run (r : Run) (sel : option Z) :
  sorted_by_start (run_steps r) ->
  Forall (within_run (run_started_at r) (run_completed_at r)) (run_steps r) ->
  timeline_invariant (run_completed_at r - run_started_at r)
                     (prepareTimelineData (Some r) sel).
Proof.
  intros Hsort Hin.
  destruct (run_steps r) as [|step rest] eqn:Hsteps.
  { unfold prepareTimelineData. rewrite Hsteps.
    split; [|split]; intros; discriminate. }
  rewrite prepareTimelineData_segmentsAfter by (rewrite Hsteps; discriminate).
  rewrite Hsteps.
  set (st := run_started_at r) in *. set (et := run_completed_at r) in *.
  pose proof Hin as Hin'.
  apply Forall_cons in Hin'. destruct Hin' as [(Htr & Hs0 & Hsc & Hce) Hrest].
  assert (Htail :
    chain adjacent_ok
      (stepSegment st et sel 0 step
         :: segmentsAfter st et sel (num (step_completed_at step)) 1 rest)).
  { apply segmentsAfter_chain; trivial.
    - destruct rest; [exact I | apply Hsort].
    - cbn. rewrite Htr. lia.
    - cbn. now rewrite Htr.
    - intros s Hs. destruct rest as [|s' rest]; [discriminate|].
      injection Hs as ->. cbn. destruct Hsort as [Hsort _]. lia. }
  assert (Hlast : forall b,
    last (stepSegment st et sel 0 step
            :: segmentsAfter st et sel (num (step_completed_at step)) 1 rest) = Some b ->
    seg_actualEnd b = et - st).
  { intros b. apply segmentsAfter_last; trivial. cbn. now rewrite Htr. }
  cbn [segmentsAfter]. destruct (st <? step_started_at step) eqn:Hlt; cbn [app].
  - apply Z.ltb_lt in Hlt. split; [|split].
    + intros i a b. apply chain_lookup. cbn [chain]. split; [|exact Htail].
      split; [cbn; lia | left; reflexivity].
    + intros a Ha. injection Ha as <-. cbn. lia.
    + intros b Hb. rewrite last_cons_cons in Hb. rewrite (Hlast b Hb). lia.
  - apply Z.ltb_ge in Hlt. split; [|split].
    + intros i a b. apply chain_lookup. exact Htail.
    + intros a Ha. injection Ha as <-. cbn. lia.
    + intros b Hb. rewrite (Hlast b Hb). lia.
Qed.

Lemma timeline_invariant_within_run_witness :
  sorted_by_start (run_steps scenario_run)
  /\ Forall (within_run 0 10000) (run_steps scenario_run)
  /\ timeline_invariant 10000 (prepareTimelineData (Some scenario_run) None).
Proof.
  assert (Hsort : sorted_by_start (run_steps scenario_run)).
  { cbn. split; [lia | exact I]. }
  assert (Hin : Forall (within_run 0 10000) (run_steps scenario_run)).
  { repeat constructor; cbn; lia. }
  split; [exact Hsort|]. split; [exact Hin|].
  exact (timeline_invariant_within_run scenario_run None Hsort Hin).
Defined.

(** C2, as stated, fails: after the step a = [0, 10000] the cursor of the
    specification stays at 10000, so no gap may precede c = [3000, 4000];
    the timeline has one, because b ended at 2000. *)
Lemma cursor_rule_fails_nested :
  sorted_by_start (run_steps nested_run)
  /\ gap_before 2 (prepareTimelineData (Some nested_run) None) = true
  /\ nth 2 (gap_flags Z.max (run_started_at nested_run) (run_completed_at nested_run)
                      0 (run_steps nested_run)) false = false
  /\ ~ cursor_rule_claim.
Proof.
  assert (Hsort : sorted_by_start (run_steps nested_run)) by (cbn; lia).
  split; [exact Hsort|]. split; [reflexivity|]. split; [reflexivity|].
  intros Hclaim.
  specialize (Hclaim nested_run None 2%nat Hsort (le_n 3)).
  discriminate Hclaim.
Qed.

(** C2, amended. For steps with resolved ends, a gap is emitted
    immediately before the step at position [i] iff that step's
    [rel_start] exceeds the cursor, where the cursor starts at 0 and after
    each step is set to that step's [rel_end] (not to the maximum with its
    previous value, so it can move backward). *)
Theorem gap_before_iff_previous_end (r : Run) (sel : option Z) (i : nat) :
  Forall resolved (run_steps r) ->
  gap_before (Z.of_nat i) (prepareTimelineData (Some r) sel)
  = nth i (gap_flags (fun _ rel_end => rel_end)
                     (run_started_at r) (run_completed_at r) 0 (run_steps r)) false.
Proof.
  intros Hres.
  destruct (run_steps r) as [|step rest] eqn:Hsteps.
  { unfold prepareTimelineData. rewrite Hsteps. now destruct i. }
  rewrite prepareTimelineData_segmentsAfter by (rewrite Hsteps; discriminate).
  rewrite Hsteps, gap_before_segmentsAfter by exact Hres.
  cbn [Nat.leb]. now rewrite Nat.sub_0_r, Z.sub_diag.
Qed.

Lemma gap_before_iff_previous_end_witness :
  Forall resolved (run_steps nested_run)
  /\ gap_before 2 (prepareTimelineData (Some nested_run) None)
     = nth 2 (gap_flags (fun _ rel_end => rel_end) 0 10000 0 (run_steps nested_run)) false.
Proof.
  assert (Hres : Forall resolved (run_steps nested_run)).
  { repeat constructor. }
  split; [exact Hres|].
  exact (gap_before_iff_previous_end nested_run None 2 Hres).
Defined.

End TimelineClaims.

(** ** The sort of the fetched steps *)

Section SortFacts.

Lemma chain_cons {A : Type} (R : A -> A -> Prop) (a : A) (l : list A) :
  chain R (a :: l) <-> (forall b, head l = Some b -> R a b) /\ chain R l.
Proof.
  destruct l as [|b l]; cbn.
  - split; [intros _; split; [discriminate | exact I] | trivial].
  - split.
    + intros [Hab Hc]. split; [|exact Hc]. intros b' Hb. now injection Hb as <-.
    + intros [Hab Hc]. split; [now apply Hab | exact Hc].
Qed.

Lemma insertStep_Permutation (a : Step) (l : list Step) : insertStep a l ≡ₚ a :: l.
Proof.
  induction l as [|b l IH]; cbn; [reflexivity|].
  destruct (step_created_at a - step_created_at b <=? 0); [reflexivity|].
  rewrite IH. apply Permutation_swap.
Qed.

Lemma sortSteps_Permutation (l : list Step) : sortSteps l ≡ₚ l.
Proof.
  induction l as [|a l IH]; cbn; [reflexivity|].
  unfold sortSteps in IH. now rewrite insertStep_Permutation, IH.
Qed.

Lemma insertStep_head (a : Step) (l : list Step) (x : Step) :
  head (insertStep a l) = Some x -> x = a \/ head l = Some x.
Proof.
  destruct l as [|b l]; cbn.
  - intros H. injection H as <-. now left.
  - destruct (step_created_at a - step_created_at b <=? 0); cbn; intros H;
      injection H as <-; auto.
Qed.

Lemma insertStep_chain (a : Step) (l : list Step) :
  chain le_created l -> chain le_created (insertStep a l).
Proof.
  induction l as [|b l IH]; intros Hc; [exact I|].
  cbn [insertStep]. destruct (step_created_at a - step_created_at b <=? 0) eqn:Hle.
  - apply Z.leb_le in Hle. apply chain_cons. split; [|exact Hc].
    intros b' Hb. injection Hb as <-. unfold le_created. lia.
  - apply Z.leb_gt in Hle. apply chain_cons in Hc. destruct Hc as [Hb Hc].
    apply chain_cons. split; [|now apply IH].
    intros x Hx. apply insertStep_head in Hx. destruct Hx as [->|Hx].
    + unfold le_created. lia.
    + now apply Hb.
Qed.

Lemma sortSteps_chain (l : list Step) : chain le_created (sortSteps l).
Proof.
  induction l as [|a l IH]; [exact I|]. now apply insertStep_chain.
Qed.

Lemma chain_impl {A : Type} (R S : A -> A -> Prop) (l : list A) :
  Forall (fun a => forall b, b ∈ l -> R a b -> S a b) l -> chain R l -> chain S l.
Proof.
  induction l as [|a l IH]; intros Hall Hc; [exact I|].
  apply chain_cons in Hc. destruct Hc as [Ha Hc].
  apply Forall_cons in Hall. destruct Hall as [Hra Hall].
  apply chain_cons. split.
  - intros b Hb. apply Hra; [|now apply Ha].
    destruct l; [discriminate|]. injection Hb as <-.
    apply elem_of_cons. right. apply elem_of_cons. now left.
  - apply IH; [|exact Hc].
    eapply Forall_impl; [exact Hall|]. cbn. intros x Hx b Hb.
    apply Hx. apply elem_of_cons. now right.
Qed.

(** The steps stored by a fetch are in ascending order of start. *)
Lemma fetched_steps_sorted (data : list RawStep) :
  sorted_by_start (sortSteps (map transformStep data)).
Proof.
  assert (Hall : Forall (fun s => step_started_at s = step_created_at s * 1000)
                        (sortSteps (map transformStep data))).
  { rewrite sortSteps_Permutation. apply Forall_forall. intros s Hs.
    apply list_elem_of_In, in_map_iff in Hs. destruct Hs as (raw & <- & _). reflexivity. }
  eapply chain_impl; [|apply sortSteps_chain].
  rewrite Forall_forall in Hall. apply Forall_forall. intros a Ha b Hb Hab.
  rewrite (Hall a Ha), (Hall b Hb). unfold le_created in Hab. lia.
Qed.

End SortFacts.

(** ** Handlers *)

Section HandlerFacts.

Local Open Scope string_scope.
Local Open Scope Z_scope.

Lemma never_selects_bind {A B : Type} (p : Prog A) (f : A -> Prog B) :
  never_selects p -> (forall a, never_selects (f a)) -> never_selects (p ≫= f).
Proof.
  unfold mbind, Prog_bind. intros Hp Hf.
  induction p; cbn in *; auto; contradiction.
Qed.

Lemma exec_never_selects {A : Type} (env : Env) (p : Prog A) : forall s,
  never_selects p ->
  selectedStepIndex (final_state (exec env p s)) = selectedStepIndex s.
Proof.
  induction p as [a|b k IH|e k IH|f k IH|r k IH|i k IH|u h k IH|u h k IH|k IH|l m k IH|el k IH];
    intros s Hp; cbn in Hp |- *.
  - reflexivity.
  - now rewrite IH.
  - now rewrite IH.
  - now rewrite IH.
  - now rewrite IH.
  - contradiction.
  - specialize (IH (env_run env u h) s (Hp _)).
    destruct (exec env (k (env_run env u h)) s) as [[s' evs] a]. exact IH.
  - specialize (IH (env_steps env u h) s (Hp _)).
    destruct (exec env (k (env_steps env u h)) s) as [[s' evs] a]. exact IH.
  - apply IH, Hp.
  - specialize (IH s Hp). destruct (exec env k s) as [[s' evs] a]. exact IH.
  - specialize (IH s Hp). destruct (exec env k s) as [[s' evs] a]. exact IH.
Qed.

Ltac never_selects_tac :=
  repeat first
    [ exact I
    | progress intros
    | apply never_selects_bind
    | match goal with
      | |- never_selects (when ?b _) => destruct b; cbn [when]
      | |- never_selects (match ?x with _ => _ end) => destruct x
      | |- never_selects (if ?b then _ else _) => destruct b
      end
    | progress cbn [never_selects setLoading setError setDebugInfo setRunData console] ].

Lemma requestRun_never_selects (c : State) (url : string) :
  never_selects (requestRun c url).
Proof. unfold requestRun. cbn [never_selects]. never_selects_tac. Qed.

Lemma requestSteps_never_selects (c : State) (url : string) :
  never_selects (requestSteps c url).
Proof. unfold requestSteps. cbn [never_selects]. never_selects_tac. Qed.

Lemma storeRun_never_selects (c : State) runInfo stepsData :
  never_selects (storeRun c runInfo stepsData).
Proof. unfold storeRun. never_selects_tac. Qed.

Lemma tryFetch_never_selects (c : State) : never_selects (tryFetch c).
Proof.
  unfold tryFetch. never_selects_tac;
    auto using requestRun_never_selects, requestSteps_never_selects,
               storeRun_never_selects.
Qed.

Lemma fetchRunData_never_selects (c : State) : never_selects (fetchRunData c).
Proof.
  unfold fetchRunData. never_selects_tac;
    auto using tryFetch_never_selects, requestRun_never_selects,
               requestSteps_never_selects, storeRun_never_selects.
Qed.

(** The refs left by a render cover exactly the steps of the list. *)
Lemma stepRefsOf_lookup (steps : list Step) (i : nat) :
  (i < length steps)%nat -> stepRefsOf steps !! Z.of_nat i = Some (StepCard i).
Proof.
  unfold stepRefsOf. generalize (length steps) as n. intros n.
  assert (H : forall a, (a <= i < a + n)%nat ->
    foldr (fun i refs => <[Z.of_nat i := StepCard i]> refs) (∅ : gmap Z Element) (seq a n)
      !! Z.of_nat i = Some (StepCard i)).
  { induction n as [|n IH]; intros a Hi; [lia|]. cbn [seq foldr].
    destruct (Nat.eq_dec a i) as [->|Hne].
    - apply lookup_insert_eq.
    - rewrite lookup_insert_ne by lia. apply IH. lia. }
  intros Hi. apply H. lia.
Qed.

End HandlerFacts.

(** ** The claims about the formatter *)

Section FormatterClaims.

Local Open Scope string_scope.
Local Open Scope Z_scope.

(** C5. The specification asks that every [ms] with [0 <= ms < 1000] be
    printed as rounded milliseconds, so that 0 gives "0ms". The guard
    [!ms] of the code catches 0 as well: 0 gives "N/A". This is the text
    shown for the start offset of the first bar and for a step that
    starts and ends within the same second. *)
Theorem formatDuration_zero_is_NA :
  formatDuration (JInt 0) = "N/A"
  /\ formatDuration (JInt (seg_actualStart (gapSegment 0 2000 2000))) = "N/A".
Proof. split; reflexivity. Qed.

(** C10. For every finite negative [ms] the formatter returns the rounded
    value followed by "ms": the millisecond branch only tests
    [ms < 1000]. *)
Theorem formatDuration_negative (x : spec_float) :
  Number.is_finite x = true ->
  Number.ltb x (Number.of_Z 0) = true ->
  formatDuration (JNum x) = Number.toString (Number.Math_round x) ++ "ms".
Proof.
  intros Hfin Hneg.
  destruct x as [s| | |s m e]; try discriminate.
  destruct s; [|discriminate].
  apply formatDuration_below_1000; [reflexivity|].
  rewrite of_Z_1000. reflexivity.
Qed.

Lemma formatDuration_negative_witness :
  Number.is_finite (Number.of_Z (-500)) = true
  /\ Number.ltb (Number.of_Z (-500)) (Number.of_Z 0) = true
  /\ formatDuration (JInt (-500)) = "-500ms".
Proof.
  split; [reflexivity|]. split; [reflexivity|].
  exact (formatDuration_negative (Number.of_Z (-500)) eq_refl eq_refl).
Defined.

End FormatterClaims.

(** ** The claims about fetching and selecting *)

Section HandlerClaims.

Local Open Scope string_scope.
Local Open Scope Z_scope.

(** C6, as stated, fails for the raw value 0 in a completion field: the
    code tests the field for truthiness, so a run completed at epoch
    second 0 is given the current time, not 0 * 1000. *)
Lemma run_end_zero_becomes_now :
  option_map run_completed_at
    (runData (final_state
       (exec (sample_env (Some 0) [] 1700000000000)
             (storeRun (sample_state None None) (Some (sample_runInfo (Some 0)))
                       (Some (mkStepsData [])))
             (sample_state None None))))
  = Some 1700000000000
  /\ ~ run_end_times_1000_claim.
Proof.
  split; [reflexivity|].
  intros H.
  destruct (H (sample_env (Some 0) [] 1700000000000) (sample_state None None)
              (sample_state None None) (sample_runInfo (Some 0)) (mkStepsData []) 0
              eq_refl) as (r & Hr & Ht).
  cbn in Hr. injection Hr as <-. discriminate Ht.
Qed.

(** C6, amended. A raw creation time is multiplied by 1000, and so is
    every raw completion time other than 0. A run whose completion time is
    null (or 0) gets the current time. A step whose completion time is
    null (or 0) is stored with [null], and its segment ends at the run's
    end, that is at the offset [endTime - startTime]. *)
Theorem normalization
  (env : Env) (c s : State) (runInfo : RunInfo) (stepsData : StepsData)
  (raw : RawStep) (startTime endTime : Z) (sel : option Z) (index : nat) :
  (exists r,
      runData (final_state (exec env (storeRun c (Some runInfo) (Some stepsData)) s)) = Some r
      /\ run_started_at r = ri_created_at runInfo * 1000
      /\ run_completed_at r
         = match ri_completed_at runInfo with
           | Some t => if t =? 0 then env_now env else t * 1000
           | None => env_now env
           end
      /\ run_steps r ≡ₚ map transformStep (sd_data stepsData))
  /\ step_started_at (transformStep raw) = rs_created_at raw * 1000
  /\ step_completed_at (transformStep raw)
     = match rs_completed_at raw with
       | Some t => if t =? 0 then None else Some (t * 1000)
       | None => None
       end
  /\ seg_actualEnd (stepSegment startTime endTime sel index (transformStep raw))
     = match rs_completed_at raw with
       | Some t => if t =? 0 then endTime - startTime else t * 1000 - startTime
       | None => endTime - startTime
       end.
Proof.
  split.
  - destruct runInfo as [rid tid aid status created [t|]]; unfold storeRun;
      cbn [ri_completed_at ri_created_at truthy num].
    + destruct (t =? 0); cbn; eexists; (split; [reflexivity|]); cbn;
        (repeat split; trivial); apply sortSteps_Permutation.
    + cbn. eexists. split; [reflexivity|]. cbn.
      repeat split; trivial. apply sortSteps_Permutation.
  - split; [reflexivity|].
    destruct raw as [rid rtype rstatus created [t|] details];
      cbn [transformStep rs_completed_at step_completed_at stepSegment seg_actualEnd
           truthy num].
    + destruct (t =? 0) eqn:H0; cbn [negb truthy num].
      * split; reflexivity.
      * split; [reflexivity|].
        replace (t * 1000 =? 0) with false; [reflexivity|].
        symmetry. apply Z.eqb_neq. apply Z.eqb_neq in H0. lia.
    + split; reflexivity.
Qed.

(** C7, as stated, fails in its second half: a fetch that passes
    validation and stores new run data leaves the selection made before
    it (here 1) in place. *)
Lemma fetch_keeps_selection :
  selectedStepIndex
    (final_state
       (exec (sample_env (Some 110) [sample_rawStep "a" 101 (Some 104)] 0)
             (fetchRunData (sample_state (Some scenario_run) (Some 1)))
             (sample_state (Some scenario_run) (Some 1))))
  = Some 1
  /\ option_map run_started_at
       (runData (final_state
          (exec (sample_env (Some 110) [sample_rawStep "a" 101 (Some 104)] 0)
                (fetchRunData (sample_state (Some scenario_run) (Some 1)))
                (sample_state (Some scenario_run) (Some 1)))))
     = Some 100000
  /\ ~ fetch_clears_selection_claim.
Proof.
  split; [reflexivity|]. split; [reflexivity|].
  intros H.
  specialize (H (sample_env (Some 110) [sample_rawStep "a" 101 (Some 104)] 0)
                (sample_state (Some scenario_run) (Some 1)) eq_refl).
  discriminate H.
Qed.

(** C7, amended. The selected step index is unchanged by a re-render,
    which recomputes the Segment sequence and calls no setter; and it is
    unchanged by a fetch as well: [fetchRunData] never writes the
    selection, whatever the data source answers. *)
Theorem selection_survives_render_and_fetch (env : Env) (c s : State) :
  exec env (render c) s = (s, [], viewOf c)
  /\ selectedStepIndex (final_state (exec env (fetchRunData c) s)) = selectedStepIndex s.
Proof.
  split; [reflexivity|].
  apply exec_never_selects, fetchRunData_never_selects.
Qed.

Lemma segmentsAfter_index (startTime endTime : Z) (sel : option Z) (steps : list Step) :
  forall prev index d,
    d ∈ segmentsAfter startTime endTime sel prev index steps ->
    (seg_isGap d = true /\ seg_index d = -1)
    \/ (seg_isGap d = false
        /\ exists i, (index <= i < index + length steps)%nat /\ seg_index d = Z.of_nat i).
Proof.
  induction steps as [|step rest IH]; intros prev index d Hin; cbn in Hin.
  - destruct (prev <? endTime).
    + apply list_elem_of_singleton in Hin. subst d. now left.
    + now apply elem_of_nil in Hin.
  - apply elem_of_app in Hin. destruct Hin as [Hin|Hin].
    + destruct (prev <? step_started_at step).
      * apply list_elem_of_singleton in Hin. subst d. now left.
      * now apply elem_of_nil in Hin.
    + apply elem_of_cons in Hin. destruct Hin as [->|Hin].
      * right. split; [reflexivity|]. exists index. cbn. split; [lia | reflexivity].
      * destruct (IH _ _ _ Hin) as [Hg|(Hs & i & Hi & Hd)]; [now left|].
        right. split; [exact Hs|]. exists i. cbn [length]. split; [lia | exact Hd].
Qed.

(** C8. With the run data rendered, [select] (the handler
    [scrollToStep]) called with the index of a step stores that index,
    whatever was selected before, and asks the card of that step in the
    list to scroll into view. A click on a bar of the chart that is a gap
    (it carries the index -1) calls nothing; a click on a step bar
    selects the index the bar carries. *)
Theorem select_and_gap_click
  (env : Env) (s s' : State) (r : Run) (index : nat) (d : Segment) :
  runData s = Some r ->
  (index < length (run_steps r))%nat ->
  d ∈ timelineData (viewOf s) ->
  exec env (scrollToStep (stepRefs (viewOf s)) (Z.of_nat index)) s'
  = (upd_SelectedStepIndex (Some (Z.of_nat index)) s',
     [EvScrollIntoView (StepCard index)], tt)
  /\ (seg_isGap d = true ->
      seg_index d = -1
      /\ onBarClick (viewOf s) d = Ret tt
      /\ exec env (onBarClick (viewOf s) d) s' = (s', [], tt))
  /\ (seg_isGap d = false ->
      exec env (onBarClick (viewOf s) d) s'
      = (upd_SelectedStepIndex (Some (seg_index d)) s',
         [EvScrollIntoView (StepCard (Z.to_nat (seg_index d)))], tt)).
Proof.
  intros Hr Hi Hd. unfold viewOf in *. cbn [stepRefs onBarClick timelineData] in *.
  rewrite Hr in *.
  assert (Hsel : forall i, (i < length (run_steps r))%nat ->
    exec env (scrollToStep (stepRefsOf (run_steps r)) (Z.of_nat i)) s'
    = (upd_SelectedStepIndex (Some (Z.of_nat i)) s', [EvScrollIntoView (StepCard i)], tt)).
  { intros i Hlt. unfold scrollToStep. rewrite stepRefsOf_lookup by exact Hlt. reflexivity. }
  split; [now apply Hsel|].
  assert (Hidx : (seg_isGap d = true /\ seg_index d = -1)
                 \/ (seg_isGap d = false
                     /\ exists i, (i < length (run_steps r))%nat
                                  /\ seg_index d = Z.of_nat i)).
  { destruct (run_steps r) as [|step rest] eqn:Hsteps.
    - unfold prepareTimelineData in Hd. rewrite Hsteps in Hd.
      now apply elem_of_nil in Hd.
    - rewrite prepareTimelineData_segmentsAfter in Hd by (rewrite Hsteps; discriminate).
      rewrite Hsteps in Hd.
      destruct (segmentsAfter_index _ _ _ _ _ _ _ Hd) as [Hg|(Hs & i & Hlt & Hdi)];
        [now left|].
      right. split; [exact Hs|]. exists i. split; [lia | exact Hdi]. }
  unfold barClick. split.
  - intros Hgap. rewrite Hgap. cbn.
    destruct Hidx as [[_ Hm]|[Hs _]]; [auto | congruence].
  - intros Hstep. rewrite Hstep. cbn [negb].
    destruct Hidx as [[Hg _]|(_ & i & Hlt & Hdi)]; [congruence|].
    rewrite Hdi, Nat2Z.id. now apply Hsel.
Qed.

Lemma select_and_gap_click_witness :
  runData (sample_state (Some scenario_run) (Some 0)) = Some scenario_run
  /\ (1 < length (run_steps scenario_run))%nat
  /\ gapSegment 3000 2000 5000
       ∈ timelineData (viewOf (sample_state (Some scenario_run) (Some 0)))
  /\ selectedStepIndex
       (final_state
          (exec (sample_env None [] 0)
                (scrollToStep (stepRefs (viewOf (sample_state (Some scenario_run) (Some 0)))) 1)
                (sample_state (Some scenario_run) (Some 0))))
     = Some 1.
Proof.
  assert (Hin : gapSegment 3000 2000 5000
                  ∈ timelineData (viewOf (sample_state (Some scenario_run) (Some 0)))).
  { apply elem_of_cons. right. apply elem_of_cons. left. reflexivity. }
  split; [reflexivity|]. split; [cbn; lia|]. split; [exact Hin|].
  destruct (select_and_gap_click (sample_env None [] 0)
              (sample_state (Some scenario_run) (Some 0))
              (sample_state (Some scenario_run) (Some 0))
              scenario_run 1 (gapSegment 3000 2000 5000) eq_refl
              (le_n 2) Hin) as [Hsel _].
  change (Z.of_nat 1) with 1 in Hsel. rewrite Hsel. reflexivity.
Defined.

(** C9. When the run id, the thread id or the API key is missing,
    [fetchRunData] sets the validation message and returns: no request is
    issued, and the run data, the loading flag, the debug info, the
    selection and the inputs are as before. *)
Theorem validation_error (env : Env) (c s : State) :
  runId c = "" \/ threadId c = "" \/ apiKey c = "" ->
  exec env (fetchRunData c) s = (upd_Error (Some validation_message) s, [], tt)
  /\ error (final_state (exec env (fetchRunData c) s)) = Some validation_message
  /\ events (exec env (fetchRunData c) s) = []
  /\ runData (final_state (exec env (fetchRunData c) s)) = runData s
  /\ loading (final_state (exec env (fetchRunData c) s)) = loading s
  /\ debugInfo (final_state (exec env (fetchRunData c) s)) = debugInfo s
  /\ selectedStepIndex (final_state (exec env (fetchRunData c) s)) = selectedStepIndex s.
Proof.
  intros Hmissing.
  assert (Hguard : is_empty (runId c) || is_empty (threadId c) || is_empty (apiKey c) = true).
  { destruct Hmissing as [H|[H|H]]; rewrite H; cbn [is_empty orb];
      rewrite ?orb_true_r; reflexivity. }
  unfold fetchRunData. rewrite Hguard. repeat split.
Qed.

Lemma validation_error_witness :
  (runId state_without_run_id = "" \/ threadId state_without_run_id = ""
   \/ apiKey state_without_run_id = "")
  /\ exec (sample_env None [] 0) (fetchRunData state_without_run_id) state_without_run_id
     = (upd_Error (Some validation_message) state_without_run_id, [], tt).
Proof.
  assert (H : runId state_without_run_id = "" \/ threadId state_without_run_id = ""
              \/ apiKey state_without_run_id = "") by (left; reflexivity).
  split; [exact H|].
  exact (proj1 (validation_error (sample_env None [] 0) state_without_run_id
                                 state_without_run_id H)).
Defined.

End HandlerClaims.

(** * Further properties *)

(** ** The timeline *)

Section TimelineMore.

Local Open Scope Z_scope.

Variables (startTime endTime : Z) (sel : option Z).

Lemma segmentsAfter_duration (steps : list Step) : forall prev index d,
  d ∈ segmentsAfter startTime endTime sel prev index steps ->
  seg_duration d = seg_actualEnd d - seg_actualStart d.
Proof.
  induction steps as [|step rest IH]; intros prev index d Hin; cbn in Hin.
  - destruct (prev <? endTime).
    + apply list_elem_of_singleton in Hin. subst d. cbn. lia.
    + now apply elem_of_nil in Hin.
  - apply elem_of_app in Hin. destruct Hin as [Hin|Hin].
    + destruct (prev <? step_started_at step).
      * apply list_elem_of_singleton in Hin. subst d. reflexivity.
      * now apply elem_of_nil in Hin.
    + apply elem_of_cons in Hin. destruct Hin as [->|Hin]; [reflexivity|].
      eapply IH; eassumption.
Qed.

Lemma segmentsAfter_steps (steps : list Step) : forall prev index,
  List.filter is_step (segmentsAfter startTime endTime sel prev index steps)
  = imap (fun i step => stepSegment startTime endTime sel (index + i) step) steps.
Proof.
  induction steps as [|step rest IH]; intros prev index.
  - cbn. now destruct (prev <? endTime).
  - cbn [segmentsAfter]. rewrite List.filter_app.
    replace (List.filter is_step
               (stepSegment startTime endTime sel index step
                  :: segmentsAfter startTime endTime sel
                       (num (step_completed_at step)) (S index) rest))
      with (stepSegment startTime endTime sel index step
              :: List.filter is_step
                   (segmentsAfter startTime endTime sel
                      (num (step_completed_at step)) (S index) rest))
      by reflexivity.
    rewrite IH, imap_cons, Nat.add_0_r.
    assert (Htail :
      imap (fun i step => stepSegment startTime endTime sel (S index + i) step) rest
      = imap ((fun i step => stepSegment startTime endTime sel (index + i) step) ∘ S) rest).
    { apply imap_ext. intros i x _. cbn.
      now replace (S (index + i)) with (index + S i)%nat by lia. }
    rewrite Htail. now destruct (prev <? step_started_at step).
Qed.

Lemma segmentsAfter_length (steps : list Step) : forall prev index,
  (length steps <= length (segmentsAfter startTime endTime sel prev index steps)
   <= 2 * length steps + 1)%nat.
Proof.
  induction steps as [|step rest IH]; intros prev index.
  - cbn. destruct (prev <? endTime); cbn; lia.
  - cbn [segmentsAfter]. rewrite length_app. cbn [length].
    specialize (IH (num (step_completed_at step)) (S index)).
    destruct (prev <? step_started_at step); cbn [length]; lia.
Qed.

Lemma segmentsAfter_no_adjacent_gaps (steps : list Step) : forall prev index a,
  seg_isGap a = false ->
  chain (fun x y => seg_isGap x = false \/ seg_isGap y = false)
        (a :: segmentsAfter startTime endTime sel prev index steps).
Proof.
  induction steps as [|step rest IH]; intros prev index a Ha.
  - cbn. destruct (prev <? endTime); cbn; auto.
  - cbn [segmentsAfter].
    specialize (IH (num (step_completed_at step)) (S index)
                   (stepSegment startTime endTime sel index step) eq_refl).
    destruct (prev <? step_started_at step); cbn [app chain]; auto.
Qed.

Lemma segmentsAfter_gaps_apart (steps : list Step) (prev : Z) (index : nat) :
  chain (fun x y => seg_isGap x = false \/ seg_isGap y = false)
        (segmentsAfter startTime endTime sel prev index steps).
Proof.
  destruct steps as [|step rest].
  - cbn. destruct (prev <? endTime); exact I.
  - cbn [segmentsAfter].
    pose proof (segmentsAfter_no_adjacent_gaps rest (num (step_completed_at step))
                  (S index) (stepSegment startTime endTime sel index step) eq_refl) as Hc.
    destruct (prev <? step_started_at step); cbn [app chain]; auto.
Qed.

Lemma segmentsAfter_sum (steps : list Step) : forall prev index,
  Forall (within_run startTime endTime) steps ->
  disjoint_steps steps ->
  prev <= endTime ->
  (forall s, head steps = Some s -> prev <= step_started_at s) ->
  total_duration (segmentsAfter startTime endTime sel prev index steps) = endTime - prev.
Proof.
  induction steps as [|step rest IH]; intros prev index Hin Hdis Hle Hhead.
  - cbn. destruct (prev <? endTime) eqn:Hlt; cbn; [lia|].
    apply Z.ltb_ge in Hlt. lia.
  - apply Forall_cons in Hin. destruct Hin as [(Htr & Hs0 & Hsc & Hce) Hin].
    specialize (Hhead step eq_refl).
    assert (Hrest : total_duration
                      (segmentsAfter startTime endTime sel
                         (num (step_completed_at step)) (S index) rest)
                    = endTime - num (step_completed_at step)).
    { apply IH; trivial.
      - destruct rest; [exact I | apply Hdis].
      - intros s Hs. destruct rest as [|s' rest]; [discriminate|].
        injection Hs as ->. apply Hdis. }
    cbn [segmentsAfter]. unfold total_duration in *. rewrite fold_right_app.
    cbn [fold_right]. rewrite Hrest. cbn [stepSegment seg_duration]. rewrite Htr.
    destruct (prev <? step_started_at step) eqn:Hlt; cbn; [lia|].
    apply Z.ltb_ge in Hlt. lia.
Qed.

Lemma segmentsAfter_selected (steps : list Step) : forall prev index d,
  d ∈ segmentsAfter startTime endTime sel prev index steps ->
  seg_isSelected d = if seg_isGap d then None else Some (is_selected sel (seg_index d)).
Proof.
  induction steps as [|step rest IH]; intros prev index d Hin; cbn in Hin.
  - destruct (prev <? endTime).
    + apply list_elem_of_singleton in Hin. now subst d.
    + now apply elem_of_nil in Hin.
  - apply elem_of_app in Hin. destruct Hin as [Hin|Hin].
    + destruct (prev <? step_started_at step).
      * apply list_elem_of_singleton in Hin. now subst d.
      * now apply elem_of_nil in Hin.
    + apply elem_of_cons in Hin. destruct Hin as [->|Hin]; [reflexivity|].
      eapply IH; eassumption.
Qed.

End TimelineMore.

(** Every segment of the timeline of a run with steps is in
    [segmentsAfter]. *)
Lemma timeline_cases (rd : option Run) (sel : option Z) :
  prepareTimelineData rd sel = []
  \/ exists r, rd = Some r /\ run_steps r <> []
               /\ prepareTimelineData rd sel
                  = segmentsAfter (run_started_at r) (run_completed_at r) sel
                                  (run_started_at r) 0 (run_steps r).
Proof.
  destruct rd as [r|]; [|now left].
  destruct (run_steps r) as [|step rest] eqn:Hsteps.
  - left. unfold prepareTimelineData. now rewrite Hsteps.
  - right. exists r. assert (Hne : run_steps r <> []) by (rewrite Hsteps; discriminate).
    split; [reflexivity|]. split; [exact Hne|].
    now apply prepareTimelineData_segmentsAfter.
Qed.

Section TimelineExtras.

Local Open Scope string_scope.
Local Open Scope Z_scope.

(** X1. In every timeline, of any run and any steps, the duration of a
    segment (step or gap) is its end offset minus its start offset. *)
Theorem segment_duration_is_extent (rd : option Run) (sel : option Z) (d : Segment) :
  d ∈ prepareTimelineData rd sel ->
  seg_duration d = seg_actualEnd d - seg_actualStart d.
Proof.
  intros Hin. destruct (timeline_cases rd sel) as [Hnil|(r & _ & _ & Heq)].
  - rewrite Hnil in Hin. now apply elem_of_nil in Hin.
  - rewrite Heq in Hin. eapply segmentsAfter_duration; eassumption.
Qed.

Lemma segment_duration_is_extent_witness :
  gapSegment (-1000) 5000 4000 ∈ prepareTimelineData (Some running_run) None
  /\ seg_duration (gapSegment (-1000) 5000 4000)
     = seg_actualEnd (gapSegment (-1000) 5000 4000)
       - seg_actualStart (gapSegment (-1000) 5000 4000).
Proof.
  assert (Hin : gapSegment (-1000) 5000 4000 ∈ prepareTimelineData (Some running_run) None).
  { apply elem_of_cons. right. apply elem_of_cons. left. reflexivity. }
  split; [exact Hin|].
  exact (segment_duration_is_extent (Some running_run) None _ Hin).
Defined.

Lemma timeline_filter_steps (r : Run) (sel : option Z) :
  List.filter is_step (prepareTimelineData (Some r) sel)
  = imap (stepSegment (run_started_at r) (run_completed_at r) sel) (run_steps r).
Proof.
  destruct (run_steps r) as [|step rest] eqn:Hsteps.
  - unfold prepareTimelineData. now rewrite Hsteps.
  - rewrite prepareTimelineData_segmentsAfter by (rewrite Hsteps; discriminate).
    rewrite Hsteps. apply segmentsAfter_steps.
Qed.

(** X2. Without its gaps, the timeline is the list of the steps: one
    segment per step, in the order of the steps, the step at position [i]
    carrying the index [i]. No step is dropped, merged or moved. *)
Theorem timeline_steps_in_order (r : Run) (sel : option Z) :
  List.filter is_step (prepareTimelineData (Some r) sel)
  = imap (stepSegment (run_started_at r) (run_completed_at r) sel) (run_steps r).
Proof. apply timeline_filter_steps. Qed.

(** X3. A timeline of [n >= 1] steps has at least [n] and at most
    [2 n + 1] segments. *)
Theorem timeline_length_bounds (r : Run) (sel : option Z) :
  run_steps r <> [] ->
  (length (run_steps r) <= length (prepareTimelineData (Some r) sel)
   <= 2 * length (run_steps r) + 1)%nat.
Proof.
  intros Hne. rewrite prepareTimelineData_segmentsAfter by exact Hne.
  apply segmentsAfter_length.
Qed.

Lemma timeline_length_bounds_witness :
  run_steps scenario_run <> []
  /\ (2 <= length (prepareTimelineData (Some scenario_run) None) <= 5)%nat.
Proof.
  assert (Hne : run_steps scenario_run <> []) by discriminate.
  split; [exact Hne|].
  exact (timeline_length_bounds scenario_run None Hne).
Defined.

(** X4. Two gaps are never adjacent: of any two neighbours in a timeline
    at least one is a step. *)
Theorem no_adjacent_gaps (rd : option Run) (sel : option Z) (i : nat) (a b : Segment) :
  prepareTimelineData rd sel !! i = Some a ->
  prepareTimelineData rd sel !! S i = Some b ->
  seg_isGap a = false \/ seg_isGap b = false.
Proof.
  destruct (timeline_cases rd sel) as [Hnil|(r & _ & _ & Heq)].
  - rewrite Hnil. discriminate.
  - rewrite Heq.
    apply (chain_lookup (fun x y => seg_isGap x = false \/ seg_isGap y = false)).
    apply segmentsAfter_gaps_apart.
Qed.

Lemma no_adjacent_gaps_witness :
  prepareTimelineData (Some scenario_run) None !! 1%nat = Some (gapSegment 3000 2000 5000)
  /\ (seg_isGap (gapSegment 3000 2000 5000) = false
      \/ seg_isGap (stepSegment 0 10000 None 1 (sample_step "b" 5 (Some 8000))) = false).
Proof.
  split; [reflexivity|].
  exact (no_adjacent_gaps (Some scenario_run) None 1 _ _ eq_refl eq_refl).
Defined.

(** X5. When the steps have resolved ends, lie inside the run and do not
    overlap (each ends no later than the next starts), the durations of all
    segments, steps and gaps, add up to the duration of the run. *)
Theorem timeline_covers_run (r : Run) (sel : option Z) :
  run_steps r <> [] ->
  Forall (within_run (run_started_at r) (run_completed_at r)) (run_steps r) ->
  disjoint_steps (run_steps r) ->
  total_duration (prepareTimelineData (Some r) sel)
  = run_completed_at r - run_started_at r.
Proof.
  intros Hne Hin Hdis. rewrite prepareTimelineData_segmentsAfter by exact Hne.
  apply segmentsAfter_sum; trivial.
  - destruct (run_steps r) as [|step rest]; [contradiction|].
    apply Forall_cons in Hin. destruct Hin as [(_ & H1 & H2 & H3) _]. lia.
  - intros s Hs. destruct (run_steps r) as [|step rest]; [discriminate|].
    injection Hs as ->. apply Forall_cons in Hin. now destruct Hin as [(_ & H1 & _) _].
Qed.

Lemma timeline_covers_run_witness :
  run_steps scenario_run <> []
  /\ Forall (within_run 0 10000) (run_steps scenario_run)
  /\ disjoint_steps (run_steps scenario_run)
  /\ total_duration (prepareTimelineData (Some scenario_run) None) = 10000.
Proof.
  assert (Hne : run_steps scenario_run <> []) by discriminate.
  assert (Hin : Forall (within_run 0 10000) (run_steps scenario_run))
    by (repeat constructor; cbn; lia).
  assert (Hdis : disjoint_steps (run_steps scenario_run))
    by (cbn; split; [lia | exact I]).
  split; [exact Hne|]. split; [exact Hin|]. split; [exact Hdis|].
  exact (timeline_covers_run scenario_run None Hne Hin Hdis).
Defined.

End TimelineExtras.

(** ** The sort of the fetched steps *)

Section SortExtras.

Local Open Scope Z_scope.

Lemma insertStep_created_at_second (k : Z) (a : Step) (l : list Step) :
  created_at_second k (insertStep a l) = created_at_second k (a :: l).
Proof.
  unfold created_at_second.
  induction l as [|b l IH]; [reflexivity|].
  cbn [insertStep]. destruct (step_created_at a - step_created_at b <=? 0) eqn:Hle;
    [reflexivity|].
  apply Z.leb_gt in Hle.
  rewrite (filter_cons _ b), IH, !(filter_cons _ a), (filter_cons _ b).
  destruct (decide (step_created_at a = k)) as [Ha|Ha]; [|reflexivity].
  destruct (decide (step_created_at b = k)) as [Hb|Hb]; [lia | reflexivity].
Qed.

(** X6. The sort of the fetched steps is stable: the steps created in the
    same second come out in the order in which the API listed them. *)
Theorem sortSteps_stable (k : Z) (l : list Step) :
  created_at_second k (sortSteps l) = created_at_second k l.
Proof.
  induction l as [|a l IH]; [reflexivity|].
  change (sortSteps (a :: l)) with (insertStep a (sortSteps l)).
  rewrite insertStep_created_at_second. unfold created_at_second in *.
  now rewrite !(filter_cons _ a), IH.
Qed.

(** X7. The sorted steps are the fetched steps, each exactly as often as
    it was fetched, in ascending order of creation time; and the steps
    stored in the run are in ascending order of start. *)
Theorem sortSteps_sorted_permutation (data : list RawStep) :
  sortSteps (map transformStep data) ≡ₚ map transformStep data
  /\ chain le_created (sortSteps (map transformStep data))
  /\ sorted_by_start (sortSteps (map transformStep data)).
Proof.
  split; [apply sortSteps_Permutation|].
  split; [apply sortSteps_chain | apply fetched_steps_sorted].
Qed.

(** X8. Steps that arrive in ascending order of creation time are left as
    they are. *)
Theorem sortSteps_sorted_fixed (l : list Step) :
  chain le_created l -> sortSteps l = l.
Proof.
  induction l as [|a l IH]; intros Hc; [reflexivity|].
  apply chain_cons in Hc. destruct Hc as [Ha Hc].
  change (sortSteps (a :: l)) with (insertStep a (sortSteps l)).
  rewrite (IH Hc). destruct l as [|b l]; [reflexivity|].
  cbn [insertStep]. specialize (Ha b eq_refl). unfold le_created in Ha.
  destruct (step_created_at a - step_created_at b <=? 0) eqn:Hle; [reflexivity|].
  apply Z.leb_gt in Hle. lia.
Qed.

Lemma sortSteps_sorted_fixed_witness :
  chain le_created (run_steps nested_run)
  /\ sortSteps (run_steps nested_run) = run_steps nested_run.
Proof.
  assert (Hc : chain le_created (run_steps nested_run)).
  { cbn. unfold le_created. cbn. repeat split; lia. }
  split; [exact Hc|].
  exact (sortSteps_sorted_fixed (run_steps nested_run) Hc).
Defined.

End SortExtras.

(** ** Colours and selection *)

Section BarExtras.

Local Open Scope string_scope.
Local Open Scope Z_scope.

Lemma colorScale_in_palette (data : list Segment) (x : Z) : In (colorScale data x) palette.
Proof.
  unfold colorScale, scaleOrdinal. apply nth_In. apply Nat.mod_upper_bound. discriminate.
Qed.

Lemma colorScale_not_red (data : list Segment) (x : Z) : colorScale data x <> "#ff0000".
Proof.
  intros Heq. pose proof (colorScale_in_palette data x) as Hin.
  rewrite Heq in Hin. unfold palette in Hin. cbn [In] in Hin.
  repeat (destruct Hin as [Hin|Hin]; [discriminate Hin|]). exact Hin.
Qed.

Lemma is_selected_iff (sel : option Z) (i : Z) : is_selected sel i = true <-> sel = Some i.
Proof.
  destruct sel as [j|]; cbn; [|split; discriminate].
  rewrite Z.eqb_eq. split; [now intros -> | now intros [= ->]].
Qed.

Lemma timeline_selected (rd : option Run) (sel : option Z) (d : Segment) :
  d ∈ prepareTimelineData rd sel ->
  seg_isSelected d = if seg_isGap d then None else Some (is_selected sel (seg_index d)).
Proof.
  intros Hin. destruct (timeline_cases rd sel) as [Hnil|(r & _ & _ & Heq)].
  - rewrite Hnil in Hin. now apply elem_of_nil in Hin.
  - rewrite Heq in Hin. eapply segmentsAfter_selected; eassumption.
Qed.

Lemma timeline_index (rd : option Run) (sel : option Z) (d : Segment) :
  d ∈ prepareTimelineData rd sel ->
  if seg_isGap d then seg_index d = -1 else 0 <= seg_index d.
Proof.
  intros Hin. destruct (timeline_cases rd sel) as [Hnil|(r & _ & _ & Heq)].
  - rewrite Hnil in Hin. now apply elem_of_nil in Hin.
  - rewrite Heq in Hin.
    destruct (segmentsAfter_index _ _ _ _ _ _ _ Hin) as [[Hg Hi]|(Hs & i & _ & Hi)].
    + now rewrite Hg.
    + rewrite Hs, Hi. lia.
Qed.

Lemma bar_fill_cases (s : State) (d : Segment) :
  d ∈ timelineData (viewOf s) ->
  (seg_isGap d = true /\ barFill (timelineData (viewOf s)) d = "#e0e0e0"
   /\ seg_index d = -1)
  \/ (seg_isGap d = false
      /\ (barFill (timelineData (viewOf s)) d = "#ff0000"
          <-> selectedStepIndex s = Some (seg_index d))).
Proof.
  cbn [viewOf timelineData]. intros Hin.
  pose proof (timeline_selected _ _ _ Hin) as Hsel.
  pose proof (timeline_index _ _ _ Hin) as Hidx.
  unfold barFill. destruct (seg_isGap d) eqn:Hgap; [left; auto|].
  right. split; [reflexivity|]. rewrite Hsel.
  destruct (is_selected (selectedStepIndex s) (seg_index d)) eqn:His.
  - apply is_selected_iff in His. split; auto.
  - split.
    + intros Hred. now apply colorScale_not_red in Hred.
    + intros Hs. apply is_selected_iff in Hs. congruence.
Qed.

(** X9. In the chart of any state, a bar is drawn in the highlight colour
    exactly when it is the bar of the selected step; a gap is always drawn
    in the neutral grey, whatever is selected. *)
Theorem bar_fill_selected (s : State) (d : Segment) :
  d ∈ timelineData (viewOf s) ->
  (barFill (timelineData (viewOf s)) d = "#ff0000"
   <-> seg_isGap d = false /\ selectedStepIndex s = Some (seg_index d))
  /\ (seg_isGap d = true -> barFill (timelineData (viewOf s)) d = "#e0e0e0").
Proof.
  intros Hin.
  destruct (bar_fill_cases s d Hin) as [(Hg & Hfill & _)|(Hg & Hfill)].
  - rewrite Hfill, Hg. split; [|reflexivity].
    split; [discriminate | intros [H _]; discriminate H].
  - rewrite Hg. split; [|discriminate]. rewrite Hfill. tauto.
Qed.

Lemma bar_fill_selected_witness :
  gapSegment 3000 2000 5000
    ∈ timelineData (viewOf (sample_state (Some scenario_run) (Some 1)))
  /\ barFill (timelineData (viewOf (sample_state (Some scenario_run) (Some 1))))
             (gapSegment 3000 2000 5000) = "#e0e0e0".
Proof.
  assert (Hin : gapSegment 3000 2000 5000
                  ∈ timelineData (viewOf (sample_state (Some scenario_run) (Some 1)))).
  { apply elem_of_cons. right. apply elem_of_cons. left. reflexivity. }
  split; [exact Hin|].
  exact (proj2 (bar_fill_selected (sample_state (Some scenario_run) (Some 1)) _ Hin) eq_refl).
Defined.

Lemma scrollToStep_final_state (env : Env) (refs : gmap Z Element) (index : Z) (s : State) :
  final_state (exec env (scrollToStep refs index) s)
  = upd_SelectedStepIndex (Some index) s.
Proof. unfold scrollToStep. now destruct (refs !! index). Qed.

(** X10. After a click on the bar of a step, the next render highlights
    that step and no other, in the chart and in the list: a bar is red iff
    it carries the index of the clicked bar, and the card at position [i]
    has the highlight classes iff [i] is that index. *)
Theorem click_highlights_one_step
  (env : Env) (s : State) (d d' : Segment) (i : nat) :
  d ∈ timelineData (viewOf s) ->
  seg_isGap d = false ->
  d' ∈ timelineData (viewOf (final_state (exec env (onBarClick (viewOf s) d) s))) ->
  (barFill (timelineData (viewOf (final_state (exec env (onBarClick (viewOf s) d) s)))) d'
   = "#ff0000" <-> seg_index d' = seg_index d)
  /\ (cardClass (selectedStepIndex (final_state (exec env (onBarClick (viewOf s) d) s))) i
      = "border-red-500 bg-red-50" <-> Z.of_nat i = seg_index d).
Proof.
  intros Hd Hstep.
  assert (Hs' : final_state (exec env (onBarClick (viewOf s) d) s)
                = upd_SelectedStepIndex (Some (seg_index d)) s).
  { cbn [viewOf onBarClick]. unfold barClick. rewrite Hstep. cbn [negb].
    apply scrollToStep_final_state. }
  rewrite Hs'. intros Hd'.
  pose proof (timeline_index _ _ _ Hd) as Hidx. rewrite Hstep in Hidx.
  split.
  - destruct (bar_fill_cases (upd_SelectedStepIndex (Some (seg_index d)) s) d' Hd')
      as [(Hg & Hfill & Hi)|(Hg & Hfill)].
    + rewrite Hfill. split; [discriminate | intros Heq; lia].
    + rewrite Hfill. cbn [selectedStepIndex upd_SelectedStepIndex].
      split; [intros [= ->]; reflexivity | intros ->; reflexivity].
  - cbn [selectedStepIndex upd_SelectedStepIndex]. unfold cardClass.
    destruct (is_selected (Some (seg_index d)) (Z.of_nat i)) eqn:His.
    + apply is_selected_iff in His. injection His as His. split; auto.
    + split; [discriminate|]. intros Heq.
      assert (is_selected (Some (seg_index d)) (Z.of_nat i) = true)
        by (apply is_selected_iff; now rewrite Heq).
      congruence.
Qed.

End BarExtras.

(** ** The palette *)

Section PaletteExtras.

Local Open Scope string_scope.
Local Open Scope Z_scope.

Lemma ordinalIndex_app_r (dom : list Z) (x : Z) :
  x ∉ dom -> ordinalIndex (app dom [x]) x = length dom.
Proof.
  induction dom as [|v dom IH]; intros Hx; cbn.
  - now rewrite Z.eqb_refl.
  - apply not_elem_of_cons in Hx. destruct Hx as [Hne Hx].
    replace (v =? x) with false by (symmetry; apply Z.eqb_neq; congruence).
    now rewrite IH.
Qed.

Lemma ordinalIndex_app_l (dom more : list Z) (x : Z) :
  x ∈ dom -> ordinalIndex (app dom more) x = ordinalIndex dom x.
Proof.
  induction dom as [|v dom IH]; intros Hx; [now apply elem_of_nil in Hx|].
  cbn. destruct (v =? x) eqn:Hv; [reflexivity|].
  apply elem_of_cons in Hx. destruct Hx as [->|Hx]; [now rewrite Z.eqb_refl in Hv|].
  now rewrite IH.
Qed.

Lemma fold_addToDomain_extends (values dom : list Z) :
  exists more, fold_left addToDomain values dom = app dom more.
Proof.
  revert dom. induction values as [|v values IH]; intros dom; cbn.
  - exists []. now rewrite app_nil_r.
  - destruct (IH (addToDomain dom v)) as [more Hmore]. rewrite Hmore.
    unfold addToDomain. case_bool_decide; [now exists more|].
    exists (v :: more). now rewrite <- app_assoc.
Qed.

Lemma ordinalIndex_fold_known (values dom : list Z) (x : Z) :
  x ∈ dom -> ordinalIndex (fold_left addToDomain values dom) x = ordinalIndex dom x.
Proof.
  intros Hx. destruct (fold_addToDomain_extends values dom) as [more ->].
  now apply ordinalIndex_app_l.
Qed.

Lemma gap_precedes_step (i : Z) (d : Segment) (rest : list Segment) :
  seg_isGap d = false -> seg_index d <> i ->
  gap_precedes i (d :: rest) = gap_precedes i rest.
Proof.
  intros Hd Hi. cbn. unfold is_step. rewrite Hd. cbn.
  now replace (seg_index d =? i) with false by (symmetry; now apply Z.eqb_neq).
Qed.

Lemma ordinalIndex_segmentsAfter (startTime endTime : Z) (sel : option Z)
      (steps : list Step) : forall prev index dom i,
  (forall j, (index <= j)%nat -> Z.of_nat j ∉ dom) ->
  (index <= i < index + length steps)%nat ->
  ordinalIndex
    (fold_left addToDomain
       (map seg_index (segmentsAfter startTime endTime sel prev index steps)) dom)
    (Z.of_nat i)
  = (length dom + (i - index)
     + (if bool_decide ((-1)%Z ∈ dom) then 0
        else if gap_precedes (Z.of_nat i)
                  (segmentsAfter startTime endTime sel prev index steps)
             then 1 else 0))%nat.
Proof.
  induction steps as [|step rest IH]; intros prev index dom i Hdom Hi; [cbn in Hi; lia|].
  cbn [length] in Hi. cbn [segmentsAfter].
  set (tail := segmentsAfter startTime endTime sel (num (step_completed_at step))
                             (S index) rest) in *.
  set (seg := stepSegment startTime endTime sel index step).
  (* the domain after the gap, if there is one *)
  set (dom1 := if prev <? step_started_at step then addToDomain dom (-1) else dom).
  assert (Hfold :
    fold_left addToDomain
      (map seg_index
         ((if prev <? step_started_at step
           then [gapSegment (prev - startTime)
                   (step_started_at step - startTime - (prev - startTime))
                   (step_started_at step - startTime)]
           else []) ++ seg :: tail)%list) dom
    = fold_left addToDomain (map seg_index tail) (app dom1 [Z.of_nat index])).
  { assert (Hk : forall D, (forall j, (index <= j)%nat -> Z.of_nat j ∉ D) ->
                           addToDomain D (Z.of_nat index) = app D [Z.of_nat index]).
    { intros D HD. unfold addToDomain. case_bool_decide as Hin; [|reflexivity].
      exfalso. exact (HD index (le_n _) Hin). }
    unfold dom1. destruct (prev <? step_started_at step); cbn.
    - rewrite Hk; [reflexivity|]. intros j Hj. unfold addToDomain.
      case_bool_decide; [now apply Hdom|].
      rewrite elem_of_app, list_elem_of_singleton. intros [H'|H']; [now apply (Hdom j)|lia].
    - now rewrite Hk. }
  rewrite Hfold.
  assert (Hdom1 : forall j, (index <= j)%nat -> Z.of_nat j ∉ dom1).
  { intros j Hj. unfold dom1. destruct (prev <? step_started_at step); [|now apply Hdom].
    unfold addToDomain. case_bool_decide; [now apply Hdom|].
    rewrite elem_of_app, list_elem_of_singleton. intros [H'|H']; [now apply (Hdom j)|lia]. }
  assert (Hlen1 : length dom1
                  = (length dom
                     + (if bool_decide ((-1)%Z ∈ dom) then 0
                        else if (prev <? step_started_at step)%Z then 1 else 0))%nat).
  { unfold dom1, addToDomain. destruct (prev <? step_started_at step);
      case_bool_decide; rewrite ?length_app; cbn; lia. }
  assert (Hm1 : bool_decide (-1 ∈ app dom1 [Z.of_nat index])
                = bool_decide (-1 ∈ dom) || (prev <? step_started_at step)).
  { apply eq_true_iff_eq. rewrite orb_true_iff, !bool_decide_eq_true, elem_of_app,
      list_elem_of_singleton.
    unfold dom1, addToDomain. destruct (prev <? step_started_at step).
    - case_bool_decide as Hin.
      + split; [tauto | intros _; now left].
      + split; [now right | intros _; left; apply elem_of_app; right;
                            now apply list_elem_of_singleton].
    - split; [intros [H'|H']; [now left | lia] | intros [H'|H']; [now left | discriminate]]. }
  destruct (Nat.eq_dec i index) as [->|Hne].
  - (* the bar of this step *)
    rewrite ordinalIndex_fold_known
      by (apply elem_of_app; right; now apply list_elem_of_singleton).
    rewrite ordinalIndex_app_r by (now apply Hdom1). rewrite Hlen1, Nat.sub_diag.
    destruct (prev <? step_started_at step); cbn [app gap_precedes].
    + cbn. destruct (bool_decide ((-1)%Z ∈ dom)); lia.
    + unfold is_step. cbn [seg stepSegment seg_isGap seg_index negb andb].
      rewrite Z.eqb_refl. destruct (bool_decide ((-1)%Z ∈ dom)); lia.
  - (* a later bar *)
    assert (IHi := IH (num (step_completed_at step)) (S index)
                      (app dom1 [Z.of_nat index]) i).
    fold tail in IHi. rewrite IHi.
    2:{ intros j Hj. rewrite elem_of_app, list_elem_of_singleton.
        intros [H'|H']; [apply (Hdom1 j); [lia | exact H'] | lia]. }
    2:{ lia. }
    rewrite Hm1, length_app, Hlen1. cbn [length].
    assert (Hgp : gap_precedes (Z.of_nat i) (seg :: tail) = gap_precedes (Z.of_nat i) tail).
    { apply gap_precedes_step; [reflexivity | cbn; lia]. }
    destruct (prev <? step_started_at step); cbn [app].
    + rewrite orb_true_r. cbn [gap_precedes gapSegment seg_isGap is_step negb andb orb].
      destruct (bool_decide ((-1)%Z ∈ dom)); lia.
    + rewrite orb_false_r, Hgp. destruct (bool_decide ((-1)%Z ∈ dom)); [lia|].
      destruct (gap_precedes (Z.of_nat i) tail); lia.
Qed.

Lemma ordinalDomain_fold (values : list Z) :
  ordinalDomain values = fold_left addToDomain values [].
Proof. reflexivity. Qed.

(** X11. The colour of an unselected step bar is taken from the palette at
    the step's index if no gap comes before the bar, and one place further
    once a gap does: the gaps' index -1 takes a place in the domain of the
    colour scale. *)
Theorem step_colour_position (r : Run) (sel : option Z) (i : nat) :
  (i < length (run_steps r))%nat ->
  colorScale (prepareTimelineData (Some r) sel) (Z.of_nat i)
  = nth ((i + if gap_precedes (Z.of_nat i) (prepareTimelineData (Some r) sel)
              then 1 else 0) mod 5)%nat
        palette "".
Proof.
  intros Hi.
  assert (Hne : run_steps r <> []) by (intros H; rewrite H in Hi; cbn in Hi; lia).
  rewrite prepareTimelineData_segmentsAfter by exact Hne.
  unfold colorScale, scaleOrdinal. rewrite ordinalDomain_fold.
  rewrite ordinalIndex_segmentsAfter.
  - cbn [length palette]. rewrite Nat.sub_0_r. reflexivity.
  - intros j _ H. now apply elem_of_nil in H.
  - lia.
Qed.

Lemma step_colour_position_witness :
  (1 < length (run_steps scenario_run))%nat
  /\ colorScale (prepareTimelineData (Some scenario_run) None) 1 = "#ffc658".
Proof.
  split; [cbn; lia|].
  exact (step_colour_position scenario_run None 1 (le_n 2)).
Defined.

End PaletteExtras.

(** ** Fetching *)

Section FetchExtras.

Local Open Scope string_scope.
Local Open Scope Z_scope.

Lemma is_empty_false (x : string) : x <> "" -> is_empty x = false.
Proof. destruct x; [contradiction | reflexivity]. Qed.

Lemma guard_passes (c : State) :
  inputs_present c ->
  is_empty (runId c) || is_empty (threadId c) || is_empty (apiKey c) = false.
Proof. intros (H1 & H2 & H3). now rewrite !is_empty_false. Qed.

Ltac fetch_start c Hc :=
  unfold fetchRunData, tryFetch, requestRun, requestSteps, storeRun, processedData,
         runReply, stepsReply, runUrlOf, stepsUrlOf, final_state, events;
  rewrite (guard_passes c Hc);
  destruct (debugMode c) eqn:?; cbn.

Ltac fetch_cases env :=
  repeat match goal with
    | |- context [env_run env ?u ?h] =>
        destruct (env_run env u h) as [?|[[|] ? ? ? [?|]]]; cbn
    | |- context [env_steps env ?u ?h] =>
        destruct (env_steps env u h) as [?|[[|] ? ? ? [?|]]]; cbn
    | |- context [truthy ?x] => destruct (truthy x); cbn
    end.


(** X13. A fetch that passes the guard requests the run first, with the
    key as bearer token, and requests the steps, with the same header, only
    if the run request was answered with a success status. It issues no
    other request. *)
Theorem fetch_requests (env : Env) (c s : State) :
  inputs_present c ->
  List.filter is_fetch (events (exec env (fetchRunData c) s))
  = EvFetch (runUrlOf c) (requestHeaders (apiKey c))
      :: (if replied_ok (runReply env c)
          then [EvFetch (stepsUrlOf c) (requestHeaders (apiKey c))]
          else []).
Proof.
  intros Hc. fetch_start c Hc; fetch_cases env; reflexivity.
Qed.

(** X14. The message shown when the run request fails: a rejected request
    gives the error's message (or "Network error" when it has none), an
    answer without a success status gives the status code and the body; both
    are wrapped once by the request's handler and once by the fetch's. *)
Theorem fetch_run_error_message (env : Env) (c s : State) :
  inputs_present c ->
  match runReply env c with
  | Rejected message =>
      error (final_state (exec env (fetchRunData c) s))
      = Some ("Error: Error fetching run details: " ++ message_or message "Network error")
  | Replied resp =>
      if resp_ok resp then True
      else error (final_state (exec env (fetchRunData c) s))
           = Some ("Error: Error fetching run details: Run API request failed with status "
                     ++ show (resp_status resp) ++ ": " ++ resp_text resp)
  end.
Proof.
  intros Hc. fetch_start c Hc; fetch_cases env; try exact I; reflexivity.
Qed.

(** X15. The debug info after a fetch that passes the guard: absent when
    debug mode is off; with debug mode on it holds the URL of the run
    request, and the headers it holds are the ones with the key masked. *)
Theorem fetch_debug_info (env : Env) (c s : State) :
  inputs_present c ->
  match debugInfo (final_state (exec env (fetchRunData c) s)) with
  | None => debugMode c = false
  | Some d =>
      debugMode c = true
      /\ di_runUrl d = Some (runUrlOf c)
      /\ di_runHeaders d = Some (maskedHeaders (apiKey c))
      /\ (di_stepsHeaders d = None
          \/ di_stepsHeaders d = Some (maskedHeaders (apiKey c)))
  end.
Proof.
  intros Hc. fetch_start c Hc; fetch_cases env; repeat split; auto.
Qed.

End FetchExtras.

Section FetchWitnesses.

Local Open Scope string_scope.
Local Open Scope Z_scope.

Lemma sample_inputs_present (r : option Run) (sel : option Z) :
  inputs_present (sample_state r sel).
Proof. repeat split; discriminate. Defined.


Lemma fetch_requests_witness :
  inputs_present (sample_state None None)
  /\ length (List.filter is_fetch
       (events (exec (sample_env None [] 0)
                     (fetchRunData (sample_state None None)) (sample_state None None))))
     = 2%nat.
Proof.
  split; [apply sample_inputs_present|].
  rewrite (fetch_requests (sample_env None [] 0) (sample_state None None)
                          (sample_state None None) (sample_inputs_present None None)).
  reflexivity.
Defined.

(** A data source whose connection fails. *)
Lemma fetch_run_error_message_witness :
  inputs_present (sample_state None None)
  /\ error (final_state
       (exec (mkEnv (fun _ _ => Rejected "") (fun _ _ => Rejected "") 0)
             (fetchRunData (sample_state None None)) (sample_state None None)))
     = Some "Error: Error fetching run details: Network error".
Proof.
  split; [apply sample_inputs_present|].
  exact (fetch_run_error_message
           (mkEnv (fun _ _ => Rejected "") (fun _ _ => Rejected "") 0)
           (sample_state None None) (sample_state None None)
           (sample_inputs_present None None)).
Defined.

Lemma fetch_debug_info_witness :
  inputs_present (sample_state None None)
  /\ debugMode (sample_state None None) = false.
Proof.
  split; [apply sample_inputs_present|].
  exact (fetch_debug_info (sample_env None [] 0) (sample_state None None)
                          (sample_state None None) (sample_inputs_present None None)).
Defined.

End FetchWitnesses.

(** ** The masked key *)

Section MaskExtras.

Local Open Scope string_scope.

Lemma length_substring_le (s : string) : forall n m,
  (String.length (String.substring n m s) <= m)%nat.
Proof.
  induction s as [|ch s IH]; intros n m.
  - destruct n, m; cbn; lia.
  - destruct n as [|n]; destruct m as [|m]; cbn; try lia.
    + specialize (IH O m). lia.
    + apply IH.
    + apply IH.
Qed.

Lemma length_append (a b : string) :
  String.length (a ++ b) = (String.length a + String.length b)%nat.
Proof.
  induction a as [|ch a IH]; [reflexivity|].
  change (S (String.length (a ++ b)) = S (String.length a + String.length b)).
  now rewrite IH.
Qed.

Lemma substring_all (s : string) : forall m,
  (String.length s <= m)%nat -> String.substring 0 m s = s.
Proof.
  induction s as [|ch s IH]; intros m Hm.
  - now destruct m.
  - destruct m as [|m]; cbn in Hm |- *; [lia|]. rewrite IH by lia. reflexivity.
Qed.

(** X16. The authorization text kept for the debug panel never has more
    than 16 characters: "Bearer ", at most three characters from the start
    of the key, three dots, and at most three characters from its end. *)
Theorem masked_authorization_short (key : string) :
  (String.length (h_Authorization (maskedHeaders key)) <= 16)%nat.
Proof.
  cbn [maskedHeaders h_Authorization]. rewrite !length_append.
  pose proof (length_substring_le key 0 3).
  unfold Number.str_drop.
  pose proof (length_substring_le key (String.length key - 3)
                (String.length key - (String.length key - 3))).
  cbn [String.length]. lia.
Qed.

(** X17. A key of at most three characters is not hidden by the mask: it
    is shown whole, twice. *)
Theorem masked_key_of_three (key : string) :
  (String.length key <= 3)%nat ->
  h_Authorization (maskedHeaders key) = "Bearer " ++ key ++ "..." ++ key.
Proof.
  intros Hlen. cbn [maskedHeaders h_Authorization]. unfold Number.str_drop.
  replace (String.length key - 3)%nat with 0%nat by lia.
  rewrite Nat.sub_0_r, !substring_all by lia. reflexivity.
Qed.

Lemma masked_key_of_three_witness :
  (String.length "sk" <= 3)%nat
  /\ h_Authorization (maskedHeaders "sk") = "Bearer sk...sk".
Proof.
  split; [cbn; lia|].
  exact (masked_key_of_three "sk" (le_S _ _ (le_n 2))).
Defined.

End MaskExtras.

(** ** Saved inputs *)

Section StorageExtras.

Local Open Scope string_scope.

Lemma keys_distinct :
  key_run_id <> key_thread_id /\ key_run_id <> key_assistant_id
  /\ key_run_id <> key_api_key /\ key_run_id <> key_mode
  /\ key_thread_id <> key_assistant_id /\ key_thread_id <> key_api_key
  /\ key_thread_id <> key_mode /\ key_assistant_id <> key_api_key
  /\ key_assistant_id <> key_mode /\ key_api_key <> key_mode.
Proof. repeat split; discriminate. Qed.

Lemma getItem_setItem_if (key value : string) (storage : gmap string string) :
  getItem_or_empty (setItem_if key value storage) key
  = if is_empty value then getItem_or_empty storage key else value.
Proof.
  unfold setItem_if, getItem_or_empty. destruct (is_empty value); [reflexivity|].
  now rewrite lookup_insert_eq.
Qed.

Lemma lookup_setItem_if_ne (key key' value : string) (storage : gmap string string) :
  key <> key' -> setItem_if key value storage !! key' = storage !! key'.
Proof.
  intros Hne. unfold setItem_if. destruct (is_empty value); [reflexivity|].
  now rewrite lookup_insert_ne.
Qed.

Lemma getItem_setItem_if_ne (key key' value : string) (storage : gmap string string) :
  key <> key' ->
  getItem_or_empty (setItem_if key value storage) key' = getItem_or_empty storage key'.
Proof. intros Hne. unfold getItem_or_empty. now rewrite lookup_setItem_if_ne. Qed.

Lemma getItem_insert_ne (key key' value : string) (storage : gmap string string) :
  key <> key' ->
  getItem_or_empty (<[key := value]> storage) key' = getItem_or_empty storage key'.
Proof. intros Hne. unfold getItem_or_empty. now rewrite lookup_insert_ne. Qed.

(** X18. Reloading the page after the inputs were saved: the debug flag
    comes back as it was, and so does every input that was not empty. An
    input that was emptied is not forgotten: the value stored before comes
    back in its place. *)
Theorem saved_inputs_reload (s : State) (storage : gmap string string) :
  debugMode (initialState (saveInputs s storage)) = debugMode s
  /\ runId (initialState (saveInputs s storage))
     = (if is_empty (runId s) then getItem_or_empty storage key_run_id else runId s)
  /\ threadId (initialState (saveInputs s storage))
     = (if is_empty (threadId s) then getItem_or_empty storage key_thread_id
        else threadId s)
  /\ assistantId (initialState (saveInputs s storage))
     = (if is_empty (assistantId s) then getItem_or_empty storage key_assistant_id
        else assistantId s)
  /\ apiKey (initialState (saveInputs s storage))
     = (if is_empty (apiKey s) then getItem_or_empty storage key_api_key else apiKey s).
Proof.
  destruct keys_distinct as (H12 & H13 & H14 & H15 & H23 & H24 & H25 & H34 & H35 & H45).
  unfold saveInputs, initialState.
  cbn [debugMode runId threadId assistantId apiKey].
  split.
  { rewrite lookup_insert_eq. now destruct (debugMode s). }
  rewrite !getItem_insert_ne by congruence.
  repeat split.
  - now rewrite !getItem_setItem_if_ne, getItem_setItem_if by congruence.
  - now rewrite !getItem_setItem_if_ne, getItem_setItem_if, !getItem_setItem_if_ne
      by congruence.
  - now rewrite !getItem_setItem_if_ne, getItem_setItem_if, !getItem_setItem_if_ne
      by congruence.
  - now rewrite getItem_setItem_if, !getItem_setItem_if_ne by congruence.
Qed.

(** X19. "Clear Saved Data" followed by the saving effect and a reload
    gives four empty inputs, whatever was stored and entered before; the
    debug flag is kept, and the run on display and the selection are not
    touched by the button. *)
Theorem clear_saved_data_reload (s : State) (storage : gmap string string) :
  let cleared := clearSavedData s storage in
  let reloaded := initialState (saveInputs (fst cleared) (snd cleared)) in
  runId reloaded = "" /\ threadId reloaded = "" /\ assistantId reloaded = ""
  /\ apiKey reloaded = "" /\ debugMode reloaded = debugMode s
  /\ runData (fst cleared) = runData s
  /\ selectedStepIndex (fst cleared) = selectedStepIndex s.
Proof.
  destruct keys_distinct as (H12 & H13 & H14 & H15 & H23 & H24 & H25 & H34 & H35 & H45).
  unfold clearSavedData, saveInputs, initialState, setItem_if, getItem_or_empty.
  cbn [fst snd runId threadId assistantId apiKey debugMode runData selectedStepIndex
       is_empty].
  rewrite !lookup_insert_ne by congruence.
  rewrite lookup_insert_eq.
  repeat split; try (now destruct (debugMode s)).
  - now rewrite !lookup_delete_ne, lookup_delete_eq by congruence.
  - now rewrite !lookup_delete_ne, lookup_delete_eq by congruence.
  - now rewrite !lookup_delete_ne, lookup_delete_eq by congruence.
  - now rewrite lookup_delete_eq.
Qed.

End StorageExtras.

(** ** formatTime *)

Section FormatTimeExtras.

Local Open Scope string_scope.
Local Open Scope Z_scope.

Variable toLocaleTimeString : Z -> string.

(** X20. The completion time of a fetched step, as shown in its card:
    "N/A" when the API gave none (or 0); else the locale's time of day with
    no milliseconds, because the API's times are whole seconds. *)
Theorem formatTime_fetched_step (raw : RawStep) :
  Z.abs (num (rs_completed_at raw)) * 1000 <= maxTimeValue ->
  formatTime toLocaleTimeString (step_completed_at (transformStep raw))
  = match rs_completed_at raw with
    | Some t => if t =? 0 then "N/A" else toLocaleTimeString (t * 1000)
    | None => "N/A"
    end.
Proof.
  intros Hrange. destruct raw as [rid rtype rstatus created [t|] details];
    cbn [transformStep rs_completed_at step_completed_at truthy num] in *;
    [|reflexivity].
  destruct (t =? 0) eqn:H0; [reflexivity|]. apply Z.eqb_neq in H0.
  unfold formatTime. cbn [truthy num negb].
  replace (t * 1000 =? 0) with false by (symmetry; apply Z.eqb_neq; lia).
  cbn [negb].
  replace (maxTimeValue <? Z.abs (t * 1000)) with false
    by (symmetry; apply Z.ltb_ge; lia).
  now rewrite Z_mod_mult, Z.eqb_refl.
Qed.

Lemma padStart3_length (m : Z) :
  0 < m < 1000 -> String.length (padStart3 (show m)) = 3%nat.
Proof.
  intros Hm. apply Nat.eqb_eq.
  apply (holds_from_range
           (fun z => Nat.eqb (String.length (padStart3 (show z))) 3) 1 1000);
    [vm_cast_no_check (eq_refl true) | lia].
Qed.

(** X21. A time with a fraction of a second (such as the current time
    given to a run in progress) is shown as the locale's time of day, a dot,
    and exactly three digits. *)
Theorem formatTime_milliseconds (t : Z) :
  Z.abs t <= maxTimeValue ->
  t mod 1000 <> 0 ->
  exists digits3,
    String.length digits3 = 3%nat
    /\ formatTime toLocaleTimeString (Some t) = toLocaleTimeString t ++ "." ++ digits3.
Proof.
  intros Hrange Hms. exists (padStart3 (show (t mod 1000))). split.
  - apply padStart3_length. pose proof (Z.mod_pos_bound t 1000 eq_refl). lia.
  - unfold formatTime. cbn [truthy num].
    replace (t =? 0) with false
      by (symmetry; apply Z.eqb_neq; intros ->; now apply Hms).
    cbn [negb].
    replace (maxTimeValue <? Z.abs t) with false by (symmetry; apply Z.ltb_ge; lia).
    now replace (t mod 1000 =? 0) with false by (symmetry; now apply Z.eqb_neq).
Qed.

End FormatTimeExtras.

Lemma formatTime_fetched_step_witness :
  Z.abs (num (rs_completed_at (sample_rawStep "a" 101 (Some 104)))) * 1000 <= maxTimeValue
  /\ formatTime utcTimeString
       (step_completed_at (transformStep (sample_rawStep "a" 101 (Some 104))))
     = "00:01:44"%string.
Proof.
  assert (H : Z.abs (num (rs_completed_at (sample_rawStep "a" 101 (Some 104)))) * 1000
              <= maxTimeValue) by (cbn; unfold maxTimeValue; lia).
  split; [exact H|].
  rewrite (formatTime_fetched_step utcTimeString (sample_rawStep "a" 101 (Some 104)) H).
  reflexivity.
Defined.

Lemma formatTime_milliseconds_witness :
  Z.abs 1700000000042 <= maxTimeValue
  /\ 1700000000042 mod 1000 <> 0
  /\ exists digits3,
       String.length digits3 = 3%nat
       /\ formatTime utcTimeString (Some 1700000000042)
          = (utcTimeString 1700000000042 ++ "." ++ digits3)%string.
Proof.
  assert (H1 : Z.abs 1700000000042 <= maxTimeValue) by (unfold maxTimeValue; lia).
  assert (H2 : 1700000000042 mod 1000 <> 0) by discriminate.
  split; [exact H1|]. split; [exact H2|].
  exact (formatTime_milliseconds utcTimeString 1700000000042 H1 H2).
Defined.

(** ** formatDuration *)

Section FormatDurationExtras.

Local Open Scope string_scope.
Local Open Scope Z_scope.







(** X23. Every whole number of milliseconds from 1 to 999 is printed as
    its decimal digits followed by "ms" (0 is not: it gives "N/A"). *)
Theorem formatDuration_whole_milliseconds (ms : Z) :
  0 < ms < 1000 -> formatDuration (JInt ms) = Number.digits ms ++ "ms".
Proof. apply formatDuration_milliseconds. Qed.

Lemma formatDuration_whole_milliseconds_witness :
  0 < 245 < 1000 /\ formatDuration (JInt 245) = "245ms".
Proof.
  assert (H : 0 < 245 < 1000) by lia.
  split; [exact H|].
  exact (formatDuration_whole_milliseconds 245 H).
Defined.

End FormatDurationExtras.

(** ** The earlier variant, and the selection at the edges *)

Section OtherExtras.

Local Open Scope string_scope.
Local Open Scope Z_scope.

(** X24. The timeline of the earlier variant is the present one with the
    gaps taken out: the same steps, in the same order, with the same name,
    index, start, duration and end. *)
Theorem earlier_timeline_is_steps (r : Run) (sel : option Z) :
  map ofDatum (Earlier.prepareTimelineData (Some r))
  = map toDatum (List.filter is_step (prepareTimelineData (Some r) sel)).
Proof.
  rewrite timeline_filter_steps. unfold Earlier.prepareTimelineData.
  change (@map) with (@fmap list _). rewrite !fmap_imap.
  apply imap_ext. intros i step _. reflexivity.
Qed.

Lemma stepRefsOf_lookup_None (steps : list Step) (index : Z) :
  index < 0 \/ Z.of_nat (length steps) <= index ->
  stepRefsOf steps !! index = None.
Proof.
  unfold stepRefsOf. generalize (length steps) as n. intros n.
  assert (H : forall a,
    index < Z.of_nat a \/ Z.of_nat (a + n) <= index ->
    foldr (fun i refs => <[Z.of_nat i := StepCard i]> refs) (∅ : gmap Z Element) (seq a n)
      !! index = None).
  { induction n as [|n IH]; intros a Ha; [apply lookup_empty|]. cbn [seq foldr].
    rewrite lookup_insert_ne by lia. apply IH. lia. }
  intros Hi. apply (H O). lia.
Qed.

(** X25. [scrollToStep] does not check its argument. Called with an index
    that is no step of the rendered run (the gaps' -1, or one past the
    last step), it still stores that index as the selection; it then finds
    no card and asks for no scroll. *)
Theorem select_without_card (env : Env) (s s' : State) (r : Run) (index : Z) :
  runData s = Some r ->
  index < 0 \/ Z.of_nat (length (run_steps r)) <= index ->
  exec env (scrollToStep (stepRefs (viewOf s)) index) s'
  = (upd_SelectedStepIndex (Some index) s', [], tt).
Proof.
  intros Hr Hi. cbn [viewOf stepRefs]. rewrite Hr. unfold scrollToStep.
  now rewrite stepRefsOf_lookup_None.
Qed.

Lemma select_without_card_witness :
  runData (sample_state (Some scenario_run) (Some 0)) = Some scenario_run
  /\ (-1 < 0 \/ Z.of_nat (length (run_steps scenario_run)) <= -1)
  /\ selectedStepIndex
       (final_state
          (exec (sample_env None [] 0)
                (scrollToStep (stepRefs (viewOf (sample_state (Some scenario_run) (Some 0))))
                              (-1))
                (sample_state (Some scenario_run) (Some 0))))
     = Some (-1).
Proof.
  assert (H : -1 < 0 \/ Z.of_nat (length (run_steps scenario_run)) <= -1) by (left; lia).
  split; [reflexivity|]. split; [exact H|].
  rewrite (select_without_card (sample_env None [] 0)
             (sample_state (Some scenario_run) (Some 0))
             (sample_state (Some scenario_run) (Some 0)) scenario_run (-1) eq_refl H).
  reflexivity.
Defined.

Lemma click_highlights_one_step_witness :
  stepSegment 0 10000 (Some 0) 1 (sample_step "b" 5 (Some 8000))
    ∈ timelineData (viewOf (sample_state (Some scenario_run) (Some 0)))
  /\ cardClass
       (selectedStepIndex
          (final_state
             (exec (sample_env None [] 0)
                   (onBarClick (viewOf (sample_state (Some scenario_run) (Some 0)))
                               (stepSegment 0 10000 (Some 0) 1
                                            (sample_step "b" 5 (Some 8000))))
                   (sample_state (Some scenario_run) (Some 0)))))
       1
     = "border-red-500 bg-red-50".
Proof.
  assert (Hin : stepSegment 0 10000 (Some 0) 1 (sample_step "b" 5 (Some 8000))
                  ∈ timelineData (viewOf (sample_state (Some scenario_run) (Some 0)))).
  { apply elem_of_cons. right. apply elem_of_cons. right. apply elem_of_cons. left.
    reflexivity. }
  assert (Hin' : gapSegment 3000 2000 5000
                   ∈ timelineData
                       (viewOf (final_state
                          (exec (sample_env None [] 0)
                                (onBarClick
                                   (viewOf (sample_state (Some scenario_run) (Some 0)))
                                   (stepSegment 0 10000 (Some 0) 1
                                                (sample_step "b" 5 (Some 8000))))
                                (sample_state (Some scenario_run) (Some 0)))))).
  { apply elem_of_cons. right. apply elem_of_cons. left. reflexivity. }
  split; [exact Hin|].
  exact (proj2 (proj2 (click_highlights_one_step (sample_env None [] 0)
                         (sample_state (Some scenario_run) (Some 0)) _ _ 1
                         Hin eq_refl Hin')) eq_refl).
Defined.

End OtherExtras.
